(** * datadog-mcp: the request-authorization core

    A shallow embedding of [src/allowlist.ts] (the two-tier allow/deny
    policy and its path pattern matcher) and of the guard that
    [src/executor.ts] places in front of every outgoing call.

    [src/allowlist.ts] carries two revisions of the policy one after the
    other; the later one (lines 69-161), which adds the safe-POST tier to
    the earlier, is the one embedded here.

    Strings are [String.string]; a JavaScript array is a [list]; an array
    index that may be out of range is an [option].

    Further on come the two users of the policy besides the gateway: the
    catalog reducer of [scripts/build-spec.ts] ([extractProduct],
    [processSpec] and the merging in [buildSpec]) and the staleness check
    that decides when the catalog is rebuilt ([fetchContentLength],
    [checkStaleness], [ensureSpec]). *)

From Stdlib Require Import String Ascii List Bool Arith NArith Lia DecimalString.
Import ListNotations.
Open Scope string_scope.

(** ** The host language's string and array primitives *)

Module JS.

(** [s.split(sep)] for a separator of one code unit.  [split_aux] returns
    the first segment and the segments after it, so that the empty string
    splits into one empty segment, as in ECMAScript. *)
Fixpoint split_aux (sep : ascii) (s : string) : string * list string :=
  match s with
  | EmptyString => (EmptyString, [])
  | String c rest =>
      let (seg, segs) := split_aux sep rest in
      if Ascii.eqb c sep then (EmptyString, seg :: segs)
      else (String c seg, segs)
  end.

Definition split (sep : ascii) (s : string) : list string :=
  let (seg, segs) := split_aux sep s in seg :: segs.

(** [s.startsWith(search)] *)
Definition startsWith (s search : string) : bool := String.prefix search s.

(** [s.endsWith(search)]: the last [search.length] code units of [s] are
    compared with [search]; a [search] longer than [s] never matches. *)
Definition endsWith (s search : string) : bool :=
  let len := String.length s in
  let n := String.length search in
  if (len <? n)%nat then false
  else String.eqb (substring (len - n) n s) search.

(** [arr.every((x, i) => f(x, i))]: the callback receives the index. *)
Fixpoint every_from {A : Type} (f : A -> nat -> bool) (i : nat) (l : list A) : bool :=
  match l with
  | [] => true
  | x :: rest => if f x i then every_from f (S i) rest else false
  end.

Definition every {A : Type} (f : A -> nat -> bool) (l : list A) : bool :=
  every_from f 0 l.

(** [arr.some(f)] *)
Definition some {A : Type} (f : A -> bool) (l : list A) : bool := existsb f l.

(** [arr[i]]: [None] is JavaScript's [undefined]. *)
Definition index {A : Type} (l : list A) (i : nat) : option A := nth_error l i.

(** [new Set(xs).has(x)] on strings. *)
Definition Set_has (xs : list string) (x : string) : bool :=
  existsb (String.eqb x) xs.

(** The letter mapping of [toUpperCase] on Basic Latin: a-z to A-Z. *)
Definition upperChar (c : ascii) : ascii :=
  let n := nat_of_ascii c in
  if ((97 <=? n) && (n <=? 122))%nat then ascii_of_nat (n - 32) else c.

Fixpoint asciiUpper (s : string) : string :=
  match s with
  | EmptyString => EmptyString
  | String c rest => String (upperChar c) (asciiUpper rest)
  end.

Fixpoint isBasicLatin (s : string) : bool :=
  match s with
  | EmptyString => true
  | String c rest => (nat_of_ascii c <? 128)%nat && isBasicLatin rest
  end.

(** [String.prototype.toUpperCase] follows the Unicode case tables, which
    are part of the host and not of this repository.  It is taken as an
    interface with the two facts about it that the policy relies on: on
    Basic Latin text it is the a-z to A-Z mapping, and upper-casing an
    upper-cased string changes nothing. *)
Class UpperCasing : Type := {
  toUpperCase : string -> string;
  toUpperCase_basic_latin :
    forall s, isBasicLatin s = true -> toUpperCase s = asciiUpper s;
  toUpperCase_idempotent :
    forall s, toUpperCase (toUpperCase s) = toUpperCase s
}.

End JS.

(** ** src/allowlist.ts *)

Module Allowlist.
Import JS.

Record AllowlistEntry : Type := mkEntry {
  method : string;
  path : string
}.

Definition WRITE_ALLOWLIST : list AllowlistEntry :=
  [ (* Notebooks *)
    mkEntry "POST" "/api/v1/notebooks";
    mkEntry "PUT" "/api/v1/notebooks/{notebook_id}";
    mkEntry "DELETE" "/api/v1/notebooks/{notebook_id}";
    (* Dashboards *)
    mkEntry "POST" "/api/v1/dashboard";
    mkEntry "PUT" "/api/v1/dashboard/{dashboard_id}";
    mkEntry "DELETE" "/api/v1/dashboard/{dashboard_id}" ].

Definition SAFE_POST_SUFFIXES : list string :=
  [ "/search"; "/aggregate"; "/analytics"; "/query"; "/estimate" ].

Definition READ_METHODS : list string := [ "GET"; "HEAD" ].

Definition isSafePost (method path : string) : bool :=
  (method =? "POST") &&
  some (fun suffix => endsWith path suffix) SAFE_POST_SUFFIXES.

(** [pat.startsWith("{") && pat.endsWith("}")] *)
Definition isParam (pat : string) : bool :=
  startsWith pat "{" && endsWith pat "}".

(** The callback of [patternParts.every] in [matchPathPattern].  The two
    arrays have the same length when it runs, so [concreteParts[i]] is never
    [undefined]; the [None] branches are not reached (see
    [matchPathPattern_index_defined]). *)
Definition matchSegment (concreteParts : list string) (pat : string) (i : nat) : bool :=
  if isParam pat then
    match index concreteParts i with
    | Some c => (0 <? String.length c)%nat
    | None => false
    end
  else
    match index concreteParts i with
    | Some c => pat =? c
    | None => false
    end.

Definition matchPathPattern (pattern concrete : string) : bool :=
  let patternParts := split "/" pattern in
  let concreteParts := split "/" concrete in
  if negb (List.length patternParts =? List.length concreteParts)%nat then false
  else every (matchSegment concreteParts) patternParts.

Section Policy.
Context {U : UpperCasing}.

(** The two entry points over an arbitrary table; the exported functions
    are these at [WRITE_ALLOWLIST]. *)
Definition isAllowedSpecEndpoint_on (table : list AllowlistEntry)
    (method path : string) : bool :=
  let upper := toUpperCase method in
  if Set_has READ_METHODS upper then true
  else if isSafePost upper path then true
  else some (fun e => (e.(Allowlist.method) =? upper) && (e.(Allowlist.path) =? path)) table.

Definition isAllowedRuntimeRequest_on (table : list AllowlistEntry)
    (method path : string) : bool :=
  let upper := toUpperCase method in
  if Set_has READ_METHODS upper then true
  else if isSafePost upper path then true
  else some (fun e => (e.(Allowlist.method) =? upper) &&
                      matchPathPattern e.(Allowlist.path) path) table.

Definition isAllowedSpecEndpoint : string -> string -> bool :=
  isAllowedSpecEndpoint_on WRITE_ALLOWLIST.

Definition isAllowedRuntimeRequest : string -> string -> bool :=
  isAllowedRuntimeRequest_on WRITE_ALLOWLIST.

End Policy.

End Allowlist.

(** ** src/executor.ts: the [datadog.request] function of [executeCode] *)

Module Executor.
Import JS Allowlist.

(** What the function does to the outside world, in order. *)
Inductive Event : Type :=
| NewURL (input : string)
| SetTimeout (ms : N)
| Fetch (url method : string) (headers : list (string * string)) (body : option string)
| ClearTimeout.

(** A call either returns or throws an [Error] with a message. *)
Inductive Outcome (A : Type) : Type :=
| Returned (a : A)
| Thrown (message : string).
Arguments Returned {A} a.
Arguments Thrown {A} message.

(** Effectful code: the events it performed and how it ended. *)
Definition Eff (A : Type) : Type := (list Event * Outcome A)%type.

Definition ret {A : Type} (a : A) : Eff A := ([], Returned a).
Definition throw {A : Type} (message : string) : Eff A := ([], Thrown message).
Definition emit (e : Event) : Eff unit := ([e], Returned tt).
Definition lift {A : Type} (o : Outcome A) : Eff A := ([], o).

Definition bind {A B : Type} (m : Eff A) (k : A -> Eff B) : Eff B :=
  match m with
  | (log, Returned a) => let (log', r) := k a in ((log ++ log')%list, r)
  | (log, Thrown message) => (log, Thrown message)
  end.

(** [try { m } finally { cleanup }] *)
Definition finally {A : Type} (m : Eff A) (cleanup : Eff unit) : Eff A :=
  let (log, r) := m in
  match cleanup with
  | (log', Returned _) => ((log ++ log')%list, r)
  | (log', Thrown message) => ((log ++ log')%list, Thrown message)
  end.

Notation "x <- m ;; k" := (bind m (fun x => k))
  (at level 61, m at next level, right associativity).

(** A non-negative integer in a template literal. *)
Definition decimal (n : nat) : string := NilEmpty.string_of_uint (Nat.to_uint n).

(** [s.includes(search)] *)
Definition includes (s search : string) : bool :=
  match String.index 0 search s with
  | Some _ => true
  | None => false
  end.

Record DatadogConfig : Type := mkConfig {
  apiKey : string;
  appKey : string;
  site : string
}.

(** The host: JavaScript values, numbers, [URL] objects, [JSON.stringify],
    and the network behind [fetch]. *)
Class Host : Type := {
  JSValue : Type;
  truthy : JSValue -> bool;
  JSON_stringify : JSValue -> Outcome (option string);
  Number : Type;
  Number_toString : Number -> string;
  URL : Type;
  URL_new : string -> Outcome URL;
  searchParams_set : URL -> string -> string -> URL;
  URL_toString : URL -> string;
  Response : Type;
  response_ok : Response -> bool;
  response_status : Response -> nat;
  response_header : Response -> string -> option string;
  response_text : Response -> Outcome string;
  response_json : Response -> Outcome JSValue;
  fetch : string -> string -> list (string * string) -> option string -> Outcome Response
}.

Section Request.
Context {U : UpperCasing} {H : Host}.

(** [string | number | boolean | undefined] *)
Inductive QueryValue : Type :=
| QString (s : string)
| QNumber (n : Number)
| QBoolean (b : bool)
| QUndefined.

(** [String(value)] *)
Definition String_of (v : QueryValue) : string :=
  match v with
  | QString s => s
  | QNumber n => Number_toString n
  | QBoolean true => "true"
  | QBoolean false => "false"
  | QUndefined => "undefined"
  end.

Record DatadogRequestOptions : Type := mkOptions {
  opt_method : string;
  opt_path : string;
  opt_query : option (list (string * QueryValue));
  opt_body : JSValue
}.

Definition blockedMessage (method path : string) : string :=
  "Blocked: " ++ method ++ " " ++ path ++
  " is not in the write allowlist. Only GET/HEAD and specific notebook/dashboard operations are permitted.".

Definition setQuery (url : URL) (query : option (list (string * QueryValue))) : URL :=
  match query with
  | None => url
  | Some entries =>
      fold_left (fun u kv =>
                   match snd kv with
                   | QUndefined => u
                   | value => searchParams_set u (fst kv) (String_of value)
                   end) entries url
  end.

(** The body of the [try] block: the call and the reading of the answer. *)
Definition fetchAndRead (url : URL) (method : string)
    (headers : list (string * string)) (requestBody : option string)
    : Eff (JSValue + string) :=
  let href := URL_toString url in
  _ <- emit (Fetch href method headers requestBody) ;;
  response <- lift (fetch href method headers requestBody) ;;
  let responseContentType :=
    match response_header response "content-type" with
    | Some v => v
    | None => ""
    end in
  if negb (response_ok response) then
    let errorBody :=
      match response_text response with
      | Returned t => t
      | Thrown _ => "(could not read error body)"
      end in
    let rateLimitMsg :=
      match response_header response "x-ratelimit-reset" with
      | Some reset =>
          if (response_status response =? 429)%nat && negb (reset =? "")
          then " Rate limit resets in " ++ reset ++ "s."
          else ""
      | None => ""
      end in
    throw ("Datadog API error " ++ decimal (response_status response) ++ ": " ++
           errorBody ++ rateLimitMsg)
  else if includes responseContentType "application/json" then
    v <- lift (response_json response) ;; ret (inl v)
  else
    t <- lift (response_text response) ;; ret (inr t).

Definition request (config : DatadogConfig) (options : DatadogRequestOptions)
    : Eff (JSValue + string) :=
  let method := opt_method options in
  let path := opt_path options in
  let query := opt_query options in
  let body := opt_body options in
  if negb (isAllowedRuntimeRequest method path) then
    throw (blockedMessage method path)
  else
    let input := "https://api." ++ site config ++ path in
    _ <- emit (NewURL input) ;;
    url <- lift (URL_new input) ;;
    let url := setQuery url query in
    let headers := [("DD-API-KEY", apiKey config);
                    ("DD-APPLICATION-KEY", appKey config)] in
    hb <- (if truthy body then
             s <- lift (JSON_stringify body) ;;
             ret ((headers ++ [("Content-Type", "application/json")])%list, s)
           else ret (headers, None)) ;;
    _ <- emit (SetTimeout 30000%N) ;;
    finally (fetchAndRead url method (fst hb) (snd hb)) (emit ClearTimeout).

End Request.

End Executor.

(** ** Notions of the design that the code does not name

    The catalog speaks of templates, the gateway of concrete paths; a
    concrete path is generated from a template by putting a value in the
    place of every brace-wrapped segment.  Methods arrive in any letter
    case. *)

Module Design.
Import JS Allowlist.

(** [segs.join(sep)] *)
Fixpoint join (sep : ascii) (segs : list string) : string :=
  match segs with
  | [] => EmptyString
  | [seg] => seg
  | seg :: rest => seg ++ String sep (join sep rest)
  end.

(** No code unit of [s] is the separator. *)
Fixpoint sepFree (sep : ascii) (s : string) : bool :=
  match s with
  | EmptyString => true
  | String c rest => negb (Ascii.eqb c sep) && sepFree sep rest
  end.

(** A parameter value fills one segment: it is not empty and holds no "/". *)
Definition validValue (v : string) : bool :=
  (0 <? String.length v)%nat && sepFree "/" v.

(** ["{name}"] gives ["name"]. *)
Definition paramName (seg : string) : string :=
  substring 1 (String.length seg - 2) seg.

Definition instantiate (value : string -> string) (seg : string) : string :=
  if isParam seg then value (paramName seg) else seg.

Definition substitute (value : string -> string) (template : string) : string :=
  join "/" (map (instantiate value) (split "/" template)).

(** What one position of a match must satisfy: a brace-wrapped template
    segment against a concrete segment of length at least 1, or two equal
    segments. *)
Definition segmentAgrees (pat con : string) : Prop :=
  (startsWith pat "{" = true /\ endsWith pat "}" = true /\ 1 <= String.length con)
  \/ pat = con.

(** [m] spells [target] in upper, lower or mixed letter case. *)
Definition spelledAs (target m : string) : bool := asciiUpper m =? target.

End Design.

(** ** Basic Latin upper-casing as an instance of the host interface *)

Module BasicLatin.
Import JS.

Lemma upperChar_idempotent (c : ascii) : upperChar (upperChar c) = upperChar c.
Proof. destruct c as [[] [] [] [] [] [] [] []]; reflexivity. Qed.

Lemma asciiUpper_idempotent (s : string) : asciiUpper (asciiUpper s) = asciiUpper s.
Proof.
  induction s as [|c s IH]; simpl; [reflexivity|].
  now rewrite upperChar_idempotent, IH.
Qed.

Definition casing : UpperCasing := {|
  toUpperCase := asciiUpper;
  toUpperCase_basic_latin := fun s _ => eq_refl;
  toUpperCase_idempotent := asciiUpper_idempotent
|}.

End BasicLatin.

(** ** src/allowlist.ts, lines 1-67: the earlier revision of the policy,
       which has the same table and matcher and no safe-POST tier *)

Module AllowlistEarlier.
Import JS.

Section Policy.
Context {U : UpperCasing}.

Definition isAllowedSpecEndpoint (method path : string) : bool :=
  let upper := toUpperCase method in
  if Set_has Allowlist.READ_METHODS upper then true
  else some (fun e => (Allowlist.method e =? upper) && (Allowlist.path e =? path))
            Allowlist.WRITE_ALLOWLIST.

Definition isAllowedRuntimeRequest (method path : string) : bool :=
  let upper := toUpperCase method in
  if Set_has Allowlist.READ_METHODS upper then true
  else some (fun e => (Allowlist.method e =? upper) &&
                      Allowlist.matchPathPattern (Allowlist.path e) path)
            Allowlist.WRITE_ALLOWLIST.

End Policy.

End AllowlistEarlier.

(** ** A host without a network, to run [request] on *)

Module Offline.
Import JS Executor.

Definition host : Host := {|
  JSValue := option string;
  truthy := fun v => match v with Some _ => true | None => false end;
  JSON_stringify := fun v => Returned v;
  Number := nat;
  Number_toString := decimal;
  URL := string;
  URL_new := fun input => Returned input;
  searchParams_set := fun u k v => u ++ "&" ++ k ++ "=" ++ v;
  URL_toString := fun u => u;
  Response := unit;
  response_ok := fun _ => false;
  response_status := fun _ => 503;
  response_header := fun _ _ => None;
  response_text := fun _ => Returned "unavailable";
  response_json := fun _ => Returned None;
  fetch := fun _ _ _ _ => Thrown "fetch failed"
|}.

Definition config : DatadogConfig := mkConfig "test-api-key" "test-app-key" "datadoghq.com".

(** The two entry points with Basic Latin upper-casing. *)
Definition specEndpoint : string -> string -> bool :=
  Allowlist.isAllowedSpecEndpoint (U := BasicLatin.casing).

Definition runtimeRequest : string -> string -> bool :=
  Allowlist.isAllowedRuntimeRequest (U := BasicLatin.casing).

End Offline.

(** ** src/server.ts, lines 214-312: staleness of the built catalog
       (the ensure-spec part of the file) *)

Module EnsureSpec.
Import JS.
Import Executor(Outcome, Returned, Thrown).

(** From scripts/build-spec.ts. *)
Definition SPEC_URLS_v1 : string :=
  "https://raw.githubusercontent.com/DataDog/documentation/master/data/api/v1/full_spec.yaml".
Definition SPEC_URLS_v2 : string :=
  "https://raw.githubusercontent.com/DataDog/documentation/master/data/api/v2/full_spec.yaml".

(** What the functions do to the outside world, in order. *)
Inductive Event : Type :=
| ReadManifest
| SpecExists
| HashAllowlist
| HeadFetch (url : string) (timeoutMs : N)
| Warn (message : string)
| Log (message : string)
| BuildSpec.

Definition Run (A : Type) : Type := (list Event * Outcome A)%type.

Definition ret {A : Type} (a : A) : Run A := ([], Returned a).
Definition emit (e : Event) : Run unit := ([e], Returned tt).
Definition lift {A : Type} (o : Outcome A) : Run A := ([], o).

Definition bind {A B : Type} (m : Run A) (k : A -> Run B) : Run B :=
  match m with
  | (log, Returned a) => let (log', r) := k a in ((log ++ log')%list, r)
  | (log, Thrown message) => (log, Thrown message)
  end.

Notation "x <- m ;; k" := (bind m (fun x => k))
  (at level 61, m at next level, right associativity).

(** JavaScript numbers as the host has them: [Number(text)] and [===],
    which need not hold between a number and itself (NaN). *)
Class Numbers : Type := {
  Num : Type;
  Number_of : string -> Num;
  strictEq : Num -> Num -> bool
}.

Section WithNumbers.
Context {N : Numbers}.

Record BuildManifest : Type := mkManifest {
  allowlistHash : string;
  v1ContentLength : Num;
  v2ContentLength : Num
}.

(** What a HEAD request shows of the answer. *)
Record HeadResponse : Type := mkHead {
  head_ok : bool;
  head_content_length : option string
}.

(** The files and the network at the time of the check. *)
Class World : Type := {
  manifestFile : Outcome (option BuildManifest);
  specFilePresent : bool;
  allowlistDigest : Outcome string;
  head : string -> Outcome HeadResponse;
  rebuild : Outcome unit
}.

Context {W : World}.

Definition readManifest : Run (option BuildManifest) :=
  _ <- emit ReadManifest ;; lift manifestFile.

Definition specExists : Run bool :=
  _ <- emit SpecExists ;; ret specFilePresent.

Definition hashFile : Run string :=
  _ <- emit HashAllowlist ;; lift allowlistDigest.

Definition fetchContentLength (url : string) : Run (option Num) :=
  _ <- emit (HeadFetch url 5000%N) ;;
  match head url with
  | Thrown _ => ret None
  | Returned response =>
      if negb (head_ok response) then ret None
      else match head_content_length response with
           | None => ret None
           | Some header => ret (Some (Number_of header))
           end
  end.

(** [length !== null && length !== recorded] *)
Definition changed (length : option Num) (recorded : Num) : bool :=
  match length with
  | Some n => negb (strictEq n recorded)
  | None => false
  end.

Definition checkStaleness : Run (option string) :=
  manifest <- readManifest ;;
  match manifest with
  | None => ret (Some "no build manifest found")
  | Some manifest =>
      present <- specExists ;;
      if negb present then ret (Some "spec.json missing")
      else
        currentHash <- hashFile ;;
        if negb (currentHash =? allowlistHash manifest)
        then ret (Some "allowlist.ts changed")
        else
          v1Length <- fetchContentLength SPEC_URLS_v1 ;;
          v2Length <- fetchContentLength SPEC_URLS_v2 ;;
          if changed v1Length (v1ContentLength manifest)
          then ret (Some "upstream v1 spec changed")
          else if changed v2Length (v2ContentLength manifest)
          then ret (Some "upstream v2 spec changed")
          else
            _ <- (match v1Length, v2Length with
                  | None, None =>
                      emit (Warn "Could not reach upstream specs to check for updates")
                  | _, _ => ret tt
                  end) ;;
            ret None
  end.

Definition ensureSpec : Run unit :=
  reason <- checkStaleness ;;
  match reason with
  | None => ret tt
  | Some reason =>
      _ <- emit (Log ("Rebuilding spec: " ++ reason)) ;;
      _ <- emit BuildSpec ;;
      lift rebuild
  end.

(** The content length that a HEAD request on [url] yields, if any. *)
Definition upstreamLength (url : string) : option Num :=
  match head url with
  | Thrown _ => None
  | Returned response =>
      if head_ok response
      then option_map Number_of (head_content_length response)
      else None
  end.

End WithNumbers.

End EnsureSpec.

(** ** scripts/build-spec.ts: the catalog reducer

    [resolveRefs] is carried as a parameter of [processSpec]: it is called
    with a fresh set of seen references each time, so it is a function of
    its argument and the spec, and what it returns only fills three fields
    of an operation that is kept.  [toLowerCase] is the host's.  Objects and
    [Map]s are lists of key and value with unique keys, read by [get] and
    written by [set]; nothing that is proved depends on the order in which
    the keys are listed. *)

Module BuildSpec.
Import JS.

Definition HTTP_METHODS : list string := ["get"; "post"; "put"; "patch"; "delete"].

Section Keyed.
Context {V : Type}.

(** [obj[key]], [map.get(key)] *)
Fixpoint get (key : string) (entries : list (string * V)) : option V :=
  match entries with
  | [] => None
  | (k, v) :: rest => if k =? key then Some v else get key rest
  end.

(** [obj[key] = value], [map.set(key, value)] *)
Fixpoint set (key : string) (value : V) (entries : list (string * V))
    : list (string * V) :=
  match entries with
  | [] => [(key, value)]
  | (k, v) :: rest =>
      if k =? key then (key, value) :: rest else (k, v) :: set key value rest
  end.

End Keyed.

(** The longest run of code units other than "/" at the start: [[^/]*]. *)
Fixpoint takeSegment (s : string) : string :=
  match s with
  | EmptyString => EmptyString
  | String c rest =>
      if Ascii.eqb c "/" then EmptyString else String c (takeSegment rest)
  end.

Fixpoint skip (n : nat) (s : string) : string :=
  match n, s with
  | S n', String _ rest => skip n' rest
  | _, _ => s
  end.

(** The pattern [\/api\/v[12]\/([^/]+)] tried at the start of [s]: the
    text of the group when it matches. *)
Definition productAt (s : string) : option string :=
  if String.prefix "/api/v" s then
    match skip 6 s with
    | String digit (String slash rest) =>
        if (Ascii.eqb digit "1" || Ascii.eqb digit "2") && Ascii.eqb slash "/" then
          match takeSegment rest with
          | EmptyString => None
          | segment => Some segment
          end
        else None
    | _ => None
    end
  else None.

(** [path.match(/\/api\/v[12]\/([^/]+)/)?.[1]]: the first place from the
    left where the pattern matches decides. *)
Fixpoint extractProduct (path : string) : option string :=
  match productAt path with
  | Some product => Some product
  | None =>
      match path with
      | EmptyString => None
      | String _ rest => extractProduct rest
      end
  end.

Section ProcessSpec.
Context {U : UpperCasing}.
Context {JSValue : Type}.
Variable resolveRefs : JSValue -> JSValue.
Variable toLowerCase : string -> string.

Record OperationObject : Type := mkOperation {
  summary : JSValue;
  description : JSValue;
  tags : option (list string);
  parameters : JSValue;
  requestBody : JSValue;
  responses : JSValue
}.

(** What is written for an operation that is kept. *)
Record KeptOperation : Type := mkKept {
  kept_summary : JSValue;
  kept_description : JSValue;
  kept_tags : list string;
  kept_parameters : JSValue;
  kept_requestBody : JSValue;
  kept_responses : JSValue
}.

(** The object that [processSpec] returns. *)
Record Processed : Type := mkProcessed {
  paths : list (string * list (string * KeptOperation));
  products : list (string * nat);
  endpointCount : nat;
  removedCount : nat
}.

(** A string is truthy when it is not empty. *)
Definition truthyString (s : string) : bool := negb (s =? "").

Definition taggedWith (product : option string) (opTags : option (list string))
    : list string :=
  let tags := match opTags with Some ts => ts | None => [] end in
  match product with
  | Some p =>
      if truthyString p &&
         negb (some (fun t => toLowerCase t =? toLowerCase p) tags)
      then p :: tags else tags
  | None => tags
  end.

Definition keepOperation (path : string) (op : OperationObject) : KeptOperation :=
  mkKept (summary op) (description op)
    (taggedWith (extractProduct path) (tags op))
    (resolveRefs (parameters op)) (resolveRefs (requestBody op))
    (resolveRefs (responses op)).

(** [products.set(product, (products.get(product) ?? 0) + 1)] under
    [if (product)] *)
Definition countProduct (product : option string) (counts : list (string * nat))
    : list (string * nat) :=
  match product with
  | Some p =>
      if truthyString p
      then set p (match get p counts with Some n => n | None => 0 end + 1) counts
      else counts
  | None => counts
  end.

(** One turn of [for (const method of HTTP_METHODS)]: the state is
    [methods], [hasMethod] and the running result. *)
Definition stepMethod (path : string) (pathItem : list (string * OperationObject))
    (state : list (string * KeptOperation) * bool * Processed) (method : string)
    : list (string * KeptOperation) * bool * Processed :=
  let '(methods, hasMethod, acc) := state in
  match get method pathItem with
  | None => state
  | Some op =>
      if negb (Allowlist.isAllowedSpecEndpoint method path) then
        (methods, hasMethod,
         mkProcessed (paths acc) (products acc) (endpointCount acc)
           (removedCount acc + 1))
      else
        (set method (keepOperation path op) methods, true,
         mkProcessed (paths acc)
           (countProduct (extractProduct path) (products acc))
           (endpointCount acc + 1) (removedCount acc))
  end.

(** One turn of [for (const [path, pathItem] of Object.entries(spec.paths))];
    a falsy [pathItem] is [None]. *)
Definition stepPath (acc : Processed)
    (entry : string * option (list (string * OperationObject))) : Processed :=
  match snd entry with
  | None => acc
  | Some pathItem =>
      let '(methods, hasMethod, acc') :=
        fold_left (stepMethod (fst entry) pathItem) HTTP_METHODS ([], false, acc) in
      if hasMethod
      then mkProcessed (set (fst entry) methods (paths acc')) (products acc')
             (endpointCount acc') (removedCount acc')
      else acc'
  end.

Definition processSpec
    (specPaths : list (string * option (list (string * OperationObject))))
    : Processed :=
  fold_left stepPath specPaths (mkProcessed [] [] 0 0).

End ProcessSpec.

(** [buildSpec], the merging of the two results:
    [{ ...v1.paths, ...v2.paths }] and the two loops over the product
    counts. *)
Definition mergePaths {V : Type} (v1 v2 : list (string * V)) : list (string * V) :=
  fold_left (fun merged kv => set (fst kv) (snd kv) merged) v2
    (fold_left (fun merged kv => set (fst kv) (snd kv) merged) v1 []).

Definition mergeProducts (v1 v2 : list (string * nat)) : list (string * nat) :=
  fold_left
    (fun merged pc =>
       set (fst pc)
           (match get (fst pc) merged with Some n => n | None => 0 end + snd pc)
           merged)
    v2
    (fold_left (fun merged pc => set (fst pc) (snd pc) merged) v1 []).

End BuildSpec.

(** ** Names for parts of the catalog *)

Module CatalogTerms.
Import JS BuildSpec.

Section WithParameters.
Context {U : UpperCasing}.
Context {JSValue : Type}.
Variable resolveRefs : JSValue -> JSValue.
Variable toLowerCase : string -> string.

(** What one method contributes to [methods]. *)
Definition keptOne (path : string)
    (pathItem : list (string * OperationObject (JSValue := JSValue)))
    (method : string) : list (string * KeptOperation (JSValue := JSValue)) :=
  match get method pathItem with
  | Some op =>
      if Allowlist.isAllowedSpecEndpoint method path
      then [(method, keepOperation resolveRefs toLowerCase path op)]
      else []
  | None => []
  end.

(** Whether one method adds to [removedCount]. *)
Definition removedOne (path : string)
    (pathItem : list (string * OperationObject (JSValue := JSValue)))
    (method : string) : bool :=
  match get method pathItem with
  | Some _ => negb (Allowlist.isAllowedSpecEndpoint method path)
  | None => false
  end.

(** The operations of one path item that the filter keeps, as written. *)
Definition keptMethods (path : string)
    (pathItem : list (string * OperationObject (JSValue := JSValue)))
    : list (string * KeptOperation (JSValue := JSValue)) :=
  flat_map (keptOne path pathItem) HTTP_METHODS.

(** The methods, among the five, for which a path item has an operation. *)
Definition declaredMethods
    (pathItem : list (string * OperationObject (JSValue := JSValue))) : list string :=
  filter (fun method => match get method pathItem with Some _ => true | None => false end)
    HTTP_METHODS.

(** The pairs of path and method for which the spec declares an operation. *)
Definition declared
    (specPaths : list (string * option (list (string * OperationObject (JSValue := JSValue)))))
    : list (string * string) :=
  flat_map
    (fun entry =>
       match snd entry with
       | Some pathItem => map (pair (fst entry)) (declaredMethods pathItem)
       | None => []
       end)
    specPaths.

End WithParameters.

Definition allowedPair {U : UpperCasing} (pm : string * string) : bool :=
  Allowlist.isAllowedSpecEndpoint (snd pm) (fst pm).

(** [counts.get(key) ?? 0] *)
Definition countOf (key : string) (counts : list (string * nat)) : nat :=
  match get key counts with
  | Some n => n
  | None => 0
  end.

Definition hasProduct (product : string) (pm : string * string) : bool :=
  match extractProduct (fst pm) with
  | Some p => p =? product
  | None => false
  end.

End CatalogTerms.

(** ** Names for parts of a request *)

Module ExecutorTerms.
Import JS Executor.

Section WithHost.
Context {H : Host}.

(** The address that [request] builds for [new URL]. *)
Definition requestInput (config : DatadogConfig) (options : DatadogRequestOptions) : string :=
  "https://api." ++ site config ++ opt_path options.

(** The two headers that every call carries. *)
Definition credentials (config : DatadogConfig) : list (string * string) :=
  [("DD-API-KEY", apiKey config); ("DD-APPLICATION-KEY", appKey config)].

(** [value !== undefined] *)
Definition isDefined (kv : string * QueryValue) : bool :=
  match snd kv with
  | QUndefined => false
  | _ => true
  end.

End WithHost.

End ExecutorTerms.

(** ** Sample worlds and a sample spec, to run the functions on *)

Module Samples.
Import JS.
Import Executor(Outcome, Returned, Thrown).

(** A host whose network answers 200 with a JSON body. *)
Definition answeringHost : Executor.Host := {|
  Executor.JSValue := option string;
  Executor.truthy := fun v => match v with Some _ => true | None => false end;
  Executor.JSON_stringify := fun v => Returned v;
  Executor.Number := nat;
  Executor.Number_toString := Executor.decimal;
  Executor.URL := string;
  Executor.URL_new := fun input => Returned input;
  Executor.searchParams_set := fun u k v => u ++ "&" ++ k ++ "=" ++ v;
  Executor.URL_toString := fun u => u;
  Executor.Response := unit;
  Executor.response_ok := fun _ => true;
  Executor.response_status := fun _ => 200;
  Executor.response_header := fun _ name =>
    if name =? "content-type" then Some "application/json" else None;
  Executor.response_text := fun _ => Returned "[]";
  Executor.response_json := fun _ => Returned (Some "[]");
  Executor.fetch := fun _ _ _ _ => Returned tt
|}.

(** A host on which no address is a well-formed URL. *)
Definition malformedHost : Executor.Host := {|
  Executor.JSValue := option string;
  Executor.truthy := fun v => match v with Some _ => true | None => false end;
  Executor.JSON_stringify := fun v => Returned v;
  Executor.Number := nat;
  Executor.Number_toString := Executor.decimal;
  Executor.URL := string;
  Executor.URL_new := fun _ => Thrown "Invalid URL";
  Executor.searchParams_set := fun u k v => u;
  Executor.URL_toString := fun u => u;
  Executor.Response := unit;
  Executor.response_ok := fun _ => true;
  Executor.response_status := fun _ => 200;
  Executor.response_header := fun _ _ => None;
  Executor.response_text := fun _ => Returned "";
  Executor.response_json := fun _ => Returned None;
  Executor.fetch := fun _ _ _ _ => Thrown "fetch failed"
|}.

(** Numbers as far as content lengths need them: a run of decimal digits
    is its value, anything else is NaN, which equals nothing. *)
Fixpoint digits (s : string) (acc : N) : option N :=
  match s with
  | EmptyString => Some acc
  | String c rest =>
      let n := N_of_ascii c in
      if ((48 <=? n) && (n <=? 57))%N then digits rest (10 * acc + (n - 48))%N
      else None
  end.

Definition numbers : EnsureSpec.Numbers := {|
  EnsureSpec.Num := option N;
  EnsureSpec.Number_of := fun text => digits text 0%N;
  EnsureSpec.strictEq := fun a b =>
    match a, b with
    | Some x, Some y => N.eqb x y
    | _, _ => false
    end
|}.

Definition manifest : EnsureSpec.BuildManifest (N := numbers) :=
  EnsureSpec.mkManifest (N := numbers) "5f2c" (Some 12345%N) (Some 67890%N).

(** Local files in order, the network down. *)
Definition networkDown : EnsureSpec.World (N := numbers) := {|
  EnsureSpec.manifestFile := Returned (Some manifest);
  EnsureSpec.specFilePresent := true;
  EnsureSpec.allowlistDigest := Returned "5f2c";
  EnsureSpec.head := fun _ => Thrown "network down";
  EnsureSpec.rebuild := Returned tt
|}.

(** Local files in order, the v1 spec upstream of another length. *)
Definition upstreamChanged : EnsureSpec.World (N := numbers) := {|
  EnsureSpec.manifestFile := Returned (Some manifest);
  EnsureSpec.specFilePresent := true;
  EnsureSpec.allowlistDigest := Returned "5f2c";
  EnsureSpec.head := fun url =>
    if url =? EnsureSpec.SPEC_URLS_v1
    then Returned (EnsureSpec.mkHead true (Some "99999"))
    else Thrown "network down";
  EnsureSpec.rebuild := Returned tt
|}.

(** A spec of four paths; values are carried as text. *)
Definition operation (text : string) (opTags : option (list string))
    : BuildSpec.OperationObject (JSValue := string) :=
  BuildSpec.mkOperation text text opTags text text text.

Definition specPaths
    : list (string * option (list (string * BuildSpec.OperationObject (JSValue := string)))) :=
  [ ("/api/v1/monitor",
     Some [("get", operation "Get all monitors" (Some ["Monitors"]));
           ("post", operation "Create a monitor" (Some ["Monitors"]))]);
    ("/api/v1/notebooks/{notebook_id}",
     Some [("get", operation "Get a notebook" None);
           ("put", operation "Update a notebook" (Some ["Notebooks"]));
           ("delete", operation "Delete a notebook" (Some ["Notebooks"]))]);
    ("/api/v2/incidents/{incident_id}",
     Some [("patch", operation "Update an incident" (Some ["Incidents"]))]);
    ("/api/v2/logs/events/search",
     Some [("post", operation "Search logs" (Some ["Logs"]))]) ].

Definition processed : BuildSpec.Processed (JSValue := string) :=
  BuildSpec.processSpec (U := BasicLatin.casing) (fun v => v) (fun t => t) specPaths.

End Samples.

(** ** Facts about the primitives *)

Module JSFacts.
Import JS Design.

Lemma split_cons (sep c : ascii) (rest : string) :
  split sep (String c rest) =
  if Ascii.eqb c sep then EmptyString :: split sep rest
  else String c (hd EmptyString (split sep rest)) :: tl (split sep rest).
Proof.
  unfold split; simpl.
  destruct (split_aux sep rest) as [seg segs].
  destruct (Ascii.eqb c sep); reflexivity.
Qed.

Lemma split_sepFree (sep : ascii) (s : string) :
  sepFree sep s = true -> split sep s = [s].
Proof.
  induction s as [|c s IH]; simpl; intros Hs; [reflexivity|].
  apply andb_true_iff in Hs as [Hc Hs].
  rewrite split_cons, IH by assumption.
  apply negb_true_iff in Hc. now rewrite Hc.
Qed.

Lemma split_app (sep : ascii) (a b : string) :
  sepFree sep a = true ->
  split sep (a ++ String sep b) = a :: split sep b.
Proof.
  induction a as [|c a IH]; simpl; intros Ha.
  - now rewrite split_cons, Ascii.eqb_refl.
  - apply andb_true_iff in Ha as [Hc Ha].
    rewrite split_cons, IH by assumption.
    apply negb_true_iff in Hc. now rewrite Hc.
Qed.

Lemma split_join (sep : ascii) (segs : list string) :
  segs <> [] ->
  forallb (sepFree sep) segs = true ->
  split sep (join sep segs) = segs.
Proof.
  induction segs as [|seg rest IH]; intros Hne Hall; [congruence|].
  simpl in Hall. apply andb_true_iff in Hall as [Hseg Hrest].
  destruct rest as [|seg' rest'].
  - simpl. now apply split_sepFree.
  - change (join sep (seg :: seg' :: rest'))
      with (seg ++ String sep (join sep (seg' :: rest'))).
    rewrite split_app by assumption.
    f_equal. apply IH; [discriminate | assumption].
Qed.

Lemma split_not_nil (sep : ascii) (s : string) : split sep s <> [].
Proof. unfold split. destruct (split_aux sep s). discriminate. Qed.

Lemma split_segments_sepFree (sep : ascii) (s : string) :
  forallb (sepFree sep) (split sep s) = true.
Proof.
  induction s as [|c s IH]; [reflexivity|].
  rewrite split_cons.
  destruct (Ascii.eqb c sep) eqn:Hc; simpl.
  - exact IH.
  - pose proof (split_not_nil sep s) as Hne.
    destruct (split sep s) as [|seg segs]; [congruence|].
    simpl in *. now rewrite Hc.
Qed.

Lemma every_from_true {A : Type} (f : A -> nat -> bool) (l : list A) (k : nat) :
  every_from f k l = true <->
  forall i x, nth_error l i = Some x -> f x (k + i) = true.
Proof.
  revert k. induction l as [|a l IH]; intros k; simpl.
  - split; [intros _ [|i] x Hx; discriminate | reflexivity].
  - destruct (f a k) eqn:Hfa.
    + rewrite IH. split.
      * intros Hall [|i] x Hx; simpl in Hx.
        -- injection Hx as <-. now rewrite Nat.add_0_r.
        -- rewrite Nat.add_succ_r. now apply Hall.
      * intros Hall i x Hx. specialize (Hall (S i) x Hx).
        now rewrite Nat.add_succ_r in Hall.
    + split; [discriminate|].
      intros Hall. specialize (Hall 0 a eq_refl).
      rewrite Nat.add_0_r in Hall. congruence.
Qed.

Lemma every_true {A : Type} (f : A -> nat -> bool) (l : list A) :
  every f l = true <-> forall i x, nth_error l i = Some x -> f x i = true.
Proof. unfold every. now rewrite every_from_true. Qed.

Lemma some_same_members {A : Type} (f : A -> bool) (l l' : list A) :
  (forall x, In x l <-> In x l') -> some f l = some f l'.
Proof.
  intros Hsame. unfold some.
  destruct (existsb f l) eqn:E; symmetry.
  - apply existsb_exists in E as (x & Hin & Hfx).
    apply existsb_exists. exists x. split; [now apply Hsame | assumption].
  - destruct (existsb f l') eqn:E'; [|reflexivity].
    apply existsb_exists in E' as (x & Hin & Hfx).
    rewrite <- E. symmetry. apply existsb_exists. exists x.
    split; [now apply Hsame | assumption].
Qed.

Lemma upperChar_basic_latin (c : ascii) :
  (nat_of_ascii (upperChar c) <? 128)%nat = true ->
  (nat_of_ascii c <? 128)%nat = true.
Proof. destruct c as [[] [] [] [] [] [] [] []]; intros Hc; exact Hc. Qed.

Lemma asciiUpper_basic_latin (s : string) :
  isBasicLatin (asciiUpper s) = true -> isBasicLatin s = true.
Proof.
  induction s as [|c s IH]; simpl; [reflexivity|].
  intros Hs. apply andb_true_iff in Hs as [Hc Hs].
  apply andb_true_iff. split; [now apply upperChar_basic_latin | now apply IH].
Qed.

End JSFacts.

(** ** The path pattern matcher *)

Module MatcherFacts.
Import JS Allowlist Design JSFacts.

Lemma isParam_nonempty (pat : string) :
  isParam pat = true -> 1 <= String.length pat.
Proof. destruct pat; [discriminate | simpl; lia]. Qed.

(** Under the length guard of [matchPathPattern] every index that the
    callback reads is defined. *)
Lemma matchPathPattern_index_defined (patternParts concreteParts : list string) :
  List.length patternParts = List.length concreteParts ->
  forall i pat, nth_error patternParts i = Some pat ->
  exists con, index concreteParts i = Some con.
Proof.
  intros Hlen i pat Hpat. unfold index.
  destruct (nth_error concreteParts i) as [con|] eqn:Hcon; [now exists con|].
  apply nth_error_None in Hcon.
  assert (i < List.length patternParts) by (apply nth_error_Some; congruence).
  lia.
Qed.

Lemma matchSegment_agrees (concreteParts : list string) (pat con : string) (i : nat) :
  index concreteParts i = Some con ->
  matchSegment concreteParts pat i = true <-> segmentAgrees pat con.
Proof.
  intros Hcon. unfold matchSegment, segmentAgrees. rewrite Hcon.
  destruct (isParam pat) eqn:Hp.
  - pose proof (isParam_nonempty pat Hp) as Hne.
    unfold isParam in Hp. apply andb_true_iff in Hp as [Hs He].
    rewrite Nat.ltb_lt. split.
    + intros Hlen. left. repeat split; assumption || lia.
    + intros [(_ & _ & Hlen) | <-]; lia.
  - rewrite String.eqb_eq. split; [now right|].
    intros [(Hs & He & _) | Heq]; [|assumption].
    unfold isParam in Hp. rewrite Hs, He in Hp. discriminate.
Qed.

Lemma matchPathPattern_spec (template concrete : string) :
  matchPathPattern template concrete = true <->
  List.length (split "/" template) = List.length (split "/" concrete) /\
  forall i pat con,
    nth_error (split "/" template) i = Some pat ->
    nth_error (split "/" concrete) i = Some con ->
    segmentAgrees pat con.
Proof.
  unfold matchPathPattern.
  destruct (List.length (split "/" template) =? List.length (split "/" concrete))%nat
    eqn:Hlen; simpl.
  - apply Nat.eqb_eq in Hlen. rewrite every_true. split.
    + intros Hall. split; [assumption|]. intros i pat con Hpat Hcon.
      apply (matchSegment_agrees _ pat con i Hcon). now apply Hall.
    + intros [_ Hall] i pat Hpat.
      destruct (matchPathPattern_index_defined _ _ Hlen i pat Hpat) as [con Hcon].
      apply (matchSegment_agrees _ pat con i Hcon).
      exact (Hall i pat con Hpat Hcon).
  - apply Nat.eqb_neq in Hlen. split; [discriminate | tauto].
Qed.

Lemma matchPathPattern_refl (p : string) : matchPathPattern p p = true.
Proof.
  apply matchPathPattern_spec. split; [reflexivity|].
  intros i pat con Hpat Hcon. right. congruence.
Qed.

(** C3. [matchPathPattern template concrete] holds exactly when the two
    strings split on "/" into the same number of segments and, at every
    position, either the template segment starts with "{" and ends with "}"
    and the concrete segment has length at least 1, or the two segments are
    equal.  A match therefore never covers a prefix only, and since no
    segment of the concrete path holds a "/", a parameter never matches
    across a "/".  The four sample paths of the design behave as listed. *)
Theorem matchPathPattern_segmentwise :
  (forall template concrete,
     matchPathPattern template concrete = true <->
     List.length (split "/" template) = List.length (split "/" concrete) /\
     forall i pat con,
       nth_error (split "/" template) i = Some pat ->
       nth_error (split "/" concrete) i = Some con ->
       (startsWith pat "{" = true /\ endsWith pat "}" = true /\
        1 <= String.length con)
       \/ pat = con) /\
  (forall concrete, forallb (sepFree "/") (split "/" concrete) = true) /\
  matchPathPattern "/a/{id}/b" "/a/123/b" = true /\
  matchPathPattern "/a/{id}/b" "/a//b" = false /\
  matchPathPattern "/a/{id}" "/a/123/extra" = false /\
  matchPathPattern "/a/b" "/a/b" = true.
Proof.
  split; [exact matchPathPattern_spec|].
  split; [exact (split_segments_sepFree "/")|].
  repeat split; reflexivity.
Qed.

End MatcherFacts.

(** ** The authorization policy *)

Module PolicyFacts.
Import JS Allowlist Design JSFacts MatcherFacts.

(** Upper-casing a Basic Latin literal is a computation. *)
Ltac upper_literal :=
  rewrite ?(toUpperCase_basic_latin "GET" eq_refl),
          ?(toUpperCase_basic_latin "POST" eq_refl),
          ?(toUpperCase_basic_latin "PUT" eq_refl),
          ?(toUpperCase_basic_latin EmptyString eq_refl).

Lemma Set_has_READ_METHODS (upper : string) :
  Set_has READ_METHODS upper = true <-> upper = "GET" \/ upper = "HEAD".
Proof.
  unfold Set_has, READ_METHODS; simpl.
  rewrite orb_false_r, orb_true_iff, !String.eqb_eq. tauto.
Qed.

Lemma isSafePost_spec (upper path : string) :
  isSafePost upper path = true <->
  upper = "POST" /\
  exists suffix, In suffix SAFE_POST_SUFFIXES /\ endsWith path suffix = true.
Proof.
  unfold isSafePost, some.
  now rewrite andb_true_iff, String.eqb_eq, existsb_exists.
Qed.

Lemma some_entry_spec (f : AllowlistEntry -> bool) (upper : string)
    (table : list AllowlistEntry) :
  some (fun e => (method e =? upper) && f e) table = true <->
  exists e, In e table /\ method e = upper /\ f e = true.
Proof.
  unfold some. rewrite existsb_exists.
  split; intros (e & Hin & He); exists e; split; try assumption.
  - apply andb_true_iff in He as [Hm Hf]. now apply String.eqb_eq in Hm.
  - destruct He as [Hm Hf]. apply andb_true_iff. now rewrite String.eqb_eq.
Qed.

Section WithUpperCasing.
Context {U : UpperCasing}.

Lemma isAllowedRuntimeRequest_on_spec (table : list AllowlistEntry) (m p : string) :
  isAllowedRuntimeRequest_on table m p = true <->
  (toUpperCase m = "GET" \/ toUpperCase m = "HEAD") \/
  (toUpperCase m = "POST" /\
   exists suffix, In suffix SAFE_POST_SUFFIXES /\ endsWith p suffix = true) \/
  (exists e, In e table /\ method e = toUpperCase m /\
             matchPathPattern (path e) p = true).
Proof.
  unfold isAllowedRuntimeRequest_on.
  rewrite <- Set_has_READ_METHODS, <- isSafePost_spec,
    <- (some_entry_spec (fun e => matchPathPattern (path e) p)).
  destruct (Set_has READ_METHODS (toUpperCase m)); [tauto|].
  destruct (isSafePost (toUpperCase m) p); [tauto|].
  split; [tauto|]. intros [Hr | [Hs | Hw]]; congruence.
Qed.

Lemma isAllowedSpecEndpoint_on_spec (table : list AllowlistEntry) (m p : string) :
  isAllowedSpecEndpoint_on table m p = true <->
  (toUpperCase m = "GET" \/ toUpperCase m = "HEAD") \/
  (toUpperCase m = "POST" /\
   exists suffix, In suffix SAFE_POST_SUFFIXES /\ endsWith p suffix = true) \/
  (exists e, In e table /\ method e = toUpperCase m /\ path e = p).
Proof.
  unfold isAllowedSpecEndpoint_on.
  rewrite <- Set_has_READ_METHODS, <- isSafePost_spec.
  assert (Hw : some (fun e => (method e =? toUpperCase m) && (path e =? p)) table = true
               <-> exists e, In e table /\ method e = toUpperCase m /\ path e = p).
  { rewrite (some_entry_spec (fun e => path e =? p)).
    split; intros (e & Hin & Hm & Hp); exists e; repeat split; try assumption;
      now apply String.eqb_eq. }
  rewrite <- Hw.
  destruct (Set_has READ_METHODS (toUpperCase m)); [tauto|].
  destruct (isSafePost (toUpperCase m) p); [tauto|].
  split; [tauto|]. intros [Hr | [Hs | Hx]]; congruence.
Qed.

Lemma safe_suffixes_listed (p : string) :
  (exists suffix, In suffix SAFE_POST_SUFFIXES /\ endsWith p suffix = true) <->
  endsWith p "/search" = true \/ endsWith p "/aggregate" = true \/
  endsWith p "/analytics" = true \/ endsWith p "/query" = true \/
  endsWith p "/estimate" = true.
Proof.
  unfold SAFE_POST_SUFFIXES. split.
  - intros (suffix & Hin & He). simpl in Hin.
    destruct Hin as [<- | [<- | [<- | [<- | [<- | []]]]]]; tauto.
  - intros [He | [He | [He | [He | He]]]]; eexists; (split; [|exact He]);
      simpl; tauto.
Qed.

(** C1. The runtime guard answers true exactly when the upper-cased method
    is GET or HEAD, or it is POST and the path ends with "/search",
    "/aggregate", "/analytics", "/query" or "/estimate", or some entry of
    WRITE_ALLOWLIST has that method and a path pattern that matches the
    path; in every other case it answers false.  POST on
    "/api/v2/logs/events/search" is allowed although no entry of the table
    matches that path. *)
Theorem isAllowedRuntimeRequest_decision :
  (forall m p,
     isAllowedRuntimeRequest m p = true <->
     (toUpperCase m = "GET" \/ toUpperCase m = "HEAD") \/
     (toUpperCase m = "POST" /\
      (endsWith p "/search" = true \/ endsWith p "/aggregate" = true \/
       endsWith p "/analytics" = true \/ endsWith p "/query" = true \/
       endsWith p "/estimate" = true)) \/
     (exists e, In e WRITE_ALLOWLIST /\ method e = toUpperCase m /\
                matchPathPattern (path e) p = true)) /\
  (forall m p,
     isAllowedRuntimeRequest m p = false <->
     ~ ((toUpperCase m = "GET" \/ toUpperCase m = "HEAD") \/
        (toUpperCase m = "POST" /\
         (endsWith p "/search" = true \/ endsWith p "/aggregate" = true \/
          endsWith p "/analytics" = true \/ endsWith p "/query" = true \/
          endsWith p "/estimate" = true)) \/
        (exists e, In e WRITE_ALLOWLIST /\ method e = toUpperCase m /\
                   matchPathPattern (path e) p = true))) /\
  isAllowedRuntimeRequest "POST" "/api/v2/logs/events/search" = true /\
  (forall e, In e WRITE_ALLOWLIST ->
     matchPathPattern (path e) "/api/v2/logs/events/search" = false /\
     path e <> "/api/v2/logs/events/search").
Proof.
  assert (Hiff : forall m p,
     isAllowedRuntimeRequest m p = true <->
     (toUpperCase m = "GET" \/ toUpperCase m = "HEAD") \/
     (toUpperCase m = "POST" /\
      (endsWith p "/search" = true \/ endsWith p "/aggregate" = true \/
       endsWith p "/analytics" = true \/ endsWith p "/query" = true \/
       endsWith p "/estimate" = true)) \/
     (exists e, In e WRITE_ALLOWLIST /\ method e = toUpperCase m /\
                matchPathPattern (path e) p = true)).
  { intros m p. unfold isAllowedRuntimeRequest.
    now rewrite isAllowedRuntimeRequest_on_spec, safe_suffixes_listed. }
  split; [exact Hiff|]. split.
  - intros m p. rewrite <- Hiff.
    destruct (isAllowedRuntimeRequest m p); split; congruence.
  - split.
    + unfold isAllowedRuntimeRequest, isAllowedRuntimeRequest_on.
      upper_literal. reflexivity.
    + intros e He. simpl in He.
      destruct He as [<- | [<- | [<- | [<- | [<- | [<- | []]]]]]];
        (split; [reflexivity | discriminate]).
Qed.

(** C2. The catalog filter answers true exactly when the upper-cased method
    is GET or HEAD, or it is POST and the path ends with one of the
    configured safe-read suffixes, or the upper-cased method and the path
    are string-equal to the method and path of some entry of
    WRITE_ALLOWLIST; otherwise false.  The comparison is equality, not
    pattern matching: PUT on the template "/api/v1/notebooks/{notebook_id}"
    is kept, PUT on "/api/v1/notebooks/123" is not. *)
Theorem isAllowedSpecEndpoint_decision :
  (forall m p,
     isAllowedSpecEndpoint m p = true <->
     (toUpperCase m = "GET" \/ toUpperCase m = "HEAD") \/
     (toUpperCase m = "POST" /\
      exists suffix, In suffix SAFE_POST_SUFFIXES /\ endsWith p suffix = true) \/
     (exists e, In e WRITE_ALLOWLIST /\ method e = toUpperCase m /\ path e = p)) /\
  (forall m p,
     isAllowedSpecEndpoint m p = false <->
     ~ ((toUpperCase m = "GET" \/ toUpperCase m = "HEAD") \/
        (toUpperCase m = "POST" /\
         exists suffix, In suffix SAFE_POST_SUFFIXES /\ endsWith p suffix = true) \/
        (exists e, In e WRITE_ALLOWLIST /\ method e = toUpperCase m /\ path e = p))) /\
  isAllowedSpecEndpoint "PUT" "/api/v1/notebooks/{notebook_id}" = true /\
  isAllowedSpecEndpoint "PUT" "/api/v1/notebooks/123" = false.
Proof.
  split; [intros m p; apply isAllowedSpecEndpoint_on_spec|]. split.
  - intros m p. unfold isAllowedSpecEndpoint.
    rewrite <- isAllowedSpecEndpoint_on_spec.
    destruct (isAllowedSpecEndpoint_on WRITE_ALLOWLIST m p); split; congruence.
  - unfold isAllowedSpecEndpoint, isAllowedSpecEndpoint_on.
    upper_literal. split; reflexivity.
Qed.


Lemma toUpperCase_spelledAs (target m : string) :
  isBasicLatin target = true -> spelledAs target m = true ->
  toUpperCase m = target.
Proof.
  unfold spelledAs. intros Ht Hm. apply String.eqb_eq in Hm.
  rewrite toUpperCase_basic_latin; [assumption|].
  apply asciiUpper_basic_latin. now rewrite Hm.
Qed.

Lemma read_method_allowed (table : list AllowlistEntry) (m p : string) :
  toUpperCase m = "GET" \/ toUpperCase m = "HEAD" ->
  isAllowedSpecEndpoint_on table m p = true /\
  isAllowedRuntimeRequest_on table m p = true.
Proof.
  intros Hm. split.
  - apply isAllowedSpecEndpoint_on_spec. now left.
  - apply isAllowedRuntimeRequest_on_spec. now left.
Qed.

(** C5. A method that spells GET or HEAD, in any letter case, is allowed by
    both entry points on every path, the empty one included. *)
Theorem read_methods_always_allowed (m p : string) :
  spelledAs "GET" m = true \/ spelledAs "HEAD" m = true ->
  isAllowedSpecEndpoint m p = true /\ isAllowedRuntimeRequest m p = true.
Proof.
  intros Hm. apply read_method_allowed.
  destruct Hm as [Hm | Hm]; [left | right];
    now apply toUpperCase_spelledAs.
Qed.

Lemma not_read_method (upper : string) :
  upper <> "GET" -> upper <> "HEAD" -> Set_has READ_METHODS upper = false.
Proof.
  intros Hg Hh. destruct (Set_has READ_METHODS upper) eqn:E; [|reflexivity].
  apply Set_has_READ_METHODS in E. tauto.
Qed.

(** C7. Absent input is denied by the ordinary rules: the empty method is
    denied on every path, and on the empty path every method is denied
    unless its upper-case form is GET or HEAD. *)
Theorem malformed_input_denied :
  (forall p,
     isAllowedSpecEndpoint EmptyString p = false /\
     isAllowedRuntimeRequest EmptyString p = false) /\
  (forall m,
     toUpperCase m <> "GET" -> toUpperCase m <> "HEAD" ->
     isAllowedSpecEndpoint m EmptyString = false /\
     isAllowedRuntimeRequest m EmptyString = false).
Proof.
  split.
  - intros p.
    unfold isAllowedSpecEndpoint, isAllowedSpecEndpoint_on,
      isAllowedRuntimeRequest, isAllowedRuntimeRequest_on.
    upper_literal. split; reflexivity.
  - intros m Hg Hh.
    unfold isAllowedSpecEndpoint, isAllowedSpecEndpoint_on,
      isAllowedRuntimeRequest, isAllowedRuntimeRequest_on.
    rewrite (not_read_method _ Hg Hh).
    unfold isSafePost. simpl. rewrite !andb_false_r. split; reflexivity.
Qed.

(** C8. The method is compared without regard to letter case: a method and
    its upper-case form get the same answer from both entry points, so
    "delete" and "DELETE" are always decided alike. *)
Theorem method_case_insensitive :
  (forall m p,
     isAllowedSpecEndpoint m p = isAllowedSpecEndpoint (toUpperCase m) p /\
     isAllowedRuntimeRequest m p = isAllowedRuntimeRequest (toUpperCase m) p) /\
  (forall p,
     isAllowedSpecEndpoint "delete" p = isAllowedSpecEndpoint "DELETE" p /\
     isAllowedRuntimeRequest "delete" p = isAllowedRuntimeRequest "DELETE" p).
Proof.
  split.
  - intros m p.
    unfold isAllowedSpecEndpoint, isAllowedSpecEndpoint_on,
      isAllowedRuntimeRequest, isAllowedRuntimeRequest_on.
    now rewrite toUpperCase_idempotent.
  - intros p.
    unfold isAllowedSpecEndpoint, isAllowedSpecEndpoint_on,
      isAllowedRuntimeRequest, isAllowedRuntimeRequest_on.
    rewrite (toUpperCase_basic_latin "delete" eq_refl),
      (toUpperCase_basic_latin "DELETE" eq_refl).
    split; reflexivity.
Qed.

(** C9. The table is read as a set: a table with the same entries as
    WRITE_ALLOWLIST, in any order and with any repetitions, gives the same
    answers as WRITE_ALLOWLIST at both entry points. *)
Theorem allowlist_is_a_set (table : list AllowlistEntry) :
  (forall e, In e WRITE_ALLOWLIST <-> In e table) ->
  forall m p,
    isAllowedSpecEndpoint_on table m p = isAllowedSpecEndpoint m p /\
    isAllowedRuntimeRequest_on table m p = isAllowedRuntimeRequest m p.
Proof.
  intros Hsame m p.
  unfold isAllowedSpecEndpoint, isAllowedSpecEndpoint_on,
    isAllowedRuntimeRequest, isAllowedRuntimeRequest_on.
  split;
    (destruct (Set_has READ_METHODS (toUpperCase m)); [reflexivity|];
     destruct (isSafePost (toUpperCase m) p); [reflexivity|];
     symmetry; now apply some_same_members).
Qed.

Lemma spec_endpoint_implies_runtime (table : list AllowlistEntry) (m p : string) :
  isAllowedSpecEndpoint_on table m p = true ->
  isAllowedRuntimeRequest_on table m p = true.
Proof.
  rewrite isAllowedSpecEndpoint_on_spec, isAllowedRuntimeRequest_on_spec.
  intros [Hr | [Hs | (e & Hin & Hm & Hp)]]; [tauto | tauto |].
  right; right. exists e. repeat split; try assumption.
  rewrite Hp. apply matchPathPattern_refl.
Qed.

(** C10. The matcher is reflexive, so whatever the catalog filter keeps
    the runtime guard accepts when given the same method and path, a
    template such as "/api/v1/notebooks/{notebook_id}" passed verbatim
    included. *)
Theorem catalog_allowed_is_runtime_allowed :
  (forall p, matchPathPattern p p = true) /\
  (forall m p,
     isAllowedSpecEndpoint m p = true -> isAllowedRuntimeRequest m p = true) /\
  isAllowedRuntimeRequest "PUT" "/api/v1/notebooks/{notebook_id}" = true.
Proof.
  split; [exact matchPathPattern_refl|]. split.
  - intros m p. apply spec_endpoint_implies_runtime.
  - unfold isAllowedRuntimeRequest, isAllowedRuntimeRequest_on.
    upper_literal. reflexivity.
Qed.

End WithUpperCasing.

End PolicyFacts.

(** ** Catalog time against request time *)

Module Consistency.
Import JS Allowlist Design JSFacts MatcherFacts PolicyFacts.

Lemma validValue_sepFree (v : string) : validValue v = true -> sepFree "/" v = true.
Proof. unfold validValue. intros Hv. now apply andb_true_iff in Hv. Qed.

Lemma validValue_nonempty (v : string) :
  validValue v = true -> exists c rest, v = String c rest.
Proof. destruct v as [|c rest]; [discriminate | now exists c, rest]. Qed.

(** Substitution works segment by segment: the concrete path has the
    segments of the template, each parameter replaced by its value. *)
Lemma split_substitute (value : string -> string) (template : string) :
  (forall name, validValue (value name) = true) ->
  split "/" (substitute value template) =
  map (instantiate value) (split "/" template).
Proof.
  intros Hvalid. unfold substitute. apply split_join.
  - pose proof (split_not_nil "/" template) as Hne.
    destruct (split "/" template); [congruence | discriminate].
  - apply forallb_forall. intros seg' Hin.
    apply in_map_iff in Hin as (seg & <- & Hin).
    unfold instantiate. destruct (isParam seg).
    + apply validValue_sepFree, Hvalid.
    + pose proof (split_segments_sepFree "/" template) as Hall.
      rewrite forallb_forall in Hall. now apply Hall.
Qed.

(** Every template matches the paths generated from it. *)
Lemma matchPathPattern_substitute (value : string -> string) (template : string) :
  (forall name, validValue (value name) = true) ->
  matchPathPattern template (substitute value template) = true.
Proof.
  intros Hvalid. apply matchPathPattern_spec.
  rewrite split_substitute by assumption. split.
  - now rewrite length_map.
  - intros i pat con Hpat Hcon.
    rewrite nth_error_map, Hpat in Hcon. injection Hcon as <-.
    unfold instantiate, segmentAgrees.
    destruct (isParam pat) eqn:Hp; [left | now right].
    unfold isParam in Hp. apply andb_true_iff in Hp as [Hs He].
    destruct (validValue_nonempty _ (Hvalid (paramName pat))) as (c & rest & ->).
    repeat split; try assumption. simpl. lia.
Qed.

(** On the templates of the table, matching a generated path singles out
    the template it was generated from. *)
Lemma matchPathPattern_substitute_table (value : string -> string) (e e' : AllowlistEntry) :
  (forall name, validValue (value name) = true) ->
  In e WRITE_ALLOWLIST -> In e' WRITE_ALLOWLIST ->
  matchPathPattern (path e') (substitute value (path e)) = (path e' =? path e).
Proof.
  intros Hvalid He He'. unfold matchPathPattern.
  rewrite split_substitute by assumption.
  simpl in He, He'.
  destruct He as [<- | [<- | [<- | [<- | [<- | [<- | []]]]]]];
  destruct He' as [<- | [<- | [<- | [<- | [<- | [<- | []]]]]]];
    cbn [path];
    match goal with
    | |- context [map (instantiate value) ?l] =>
        let l' := eval vm_compute in (map (instantiate value) l) in
        change (map (instantiate value) l) with l'
    end;
    repeat match goal with
    | |- context [value ?name] =>
        let Hv := fresh "Hv" in
        destruct (validValue_nonempty _ (Hvalid name)) as (? & ? & Hv);
        rewrite Hv; clear Hv
    end;
    reflexivity.
Qed.

Lemma allowlisted_template_not_safe_suffix (e : AllowlistEntry) :
  In e WRITE_ALLOWLIST ->
  some (fun suffix => endsWith (path e) suffix) SAFE_POST_SUFFIXES = false.
Proof.
  intros He. simpl in He.
  destruct He as [<- | [<- | [<- | [<- | [<- | [<- | []]]]]]]; reflexivity.
Qed.

Lemma some_agree_on_members {A : Type} (f g : A -> bool) (l : list A) :
  (forall x, In x l -> f x = g x) -> some f l = some g l.
Proof.
  unfold some. induction l as [|a l IH]; intros Hfg; [reflexivity|].
  simpl. rewrite (Hfg a (or_introl eq_refl)), IH; [reflexivity|].
  intros x Hx. apply Hfg. now right.
Qed.

Section WithUpperCasing.
Context {U : UpperCasing}.

Lemma runtime_of_generated_path (value : string -> string) (e : AllowlistEntry)
    (m : string) :
  (forall name, validValue (value name) = true) ->
  In e WRITE_ALLOWLIST ->
  isAllowedRuntimeRequest m (substitute value (path e)) =
  isAllowedSpecEndpoint m (path e)
  || isSafePost (toUpperCase m) (substitute value (path e)).
Proof.
  intros Hvalid He.
  unfold isAllowedRuntimeRequest, isAllowedRuntimeRequest_on,
    isAllowedSpecEndpoint, isAllowedSpecEndpoint_on.
  assert (Hsafe : isSafePost (toUpperCase m) (path e) = false).
  { unfold isSafePost.
    rewrite (allowlisted_template_not_safe_suffix e He). apply andb_false_r. }
  rewrite Hsafe.
  rewrite (some_agree_on_members
             (fun e' => (method e' =? toUpperCase m)
                        && matchPathPattern (path e') (substitute value (path e)))
             (fun e' => (method e' =? toUpperCase m) && (path e' =? path e))).
  - destruct (Set_has READ_METHODS (toUpperCase m)); [reflexivity|].
    destruct (isSafePost (toUpperCase m) (substitute value (path e)));
      [now rewrite orb_true_r | now rewrite orb_false_r].
  - intros e' He'. now rewrite matchPathPattern_substitute_table.
Qed.

(** C4, as the code has it.  Let [t] be a template of WRITE_ALLOWLIST and
    [p] a path generated from [t] by putting a non-empty value without "/"
    in the place of every parameter.  For every method the runtime guard
    allows [p] exactly when the catalog filter allows [t] or the
    upper-cased method is POST and [p] ends with a safe-read suffix.  So
    what survives the catalog filter is allowed at call time, and the two
    answers are equal whenever the safe-POST rule does not apply to [p]. *)
Theorem generated_path_consistency (value : string -> string) (t m : string) :
  (forall name, validValue (value name) = true) ->
  In t (map path WRITE_ALLOWLIST) ->
  isAllowedRuntimeRequest m (substitute value t) =
    isAllowedSpecEndpoint m t || isSafePost (toUpperCase m) (substitute value t)
  /\ (isAllowedSpecEndpoint m t = true ->
      isAllowedRuntimeRequest m (substitute value t) = true)
  /\ (isSafePost (toUpperCase m) (substitute value t) = false ->
      isAllowedRuntimeRequest m (substitute value t) = isAllowedSpecEndpoint m t).
Proof.
  intros Hvalid Ht. apply in_map_iff in Ht as (e & <- & He).
  pose proof (runtime_of_generated_path value e m Hvalid He) as Heq.
  split; [exact Heq|]. split.
  - intros Hspec. now rewrite Heq, Hspec.
  - intros Hsafe. now rewrite Heq, Hsafe, orb_false_r.
Qed.

End WithUpperCasing.

(** C4 as stated fails: "search" is a parameter value like any other, and
    POST on the dashboard path generated with it is allowed at call time by
    the safe-POST rule, while POST on the template it was generated from is
    not kept in the catalog. *)
Lemma consistency_fails_on_safe_suffix :
  In "/api/v1/dashboard/{dashboard_id}" (map path WRITE_ALLOWLIST) /\
  validValue "search" = true /\
  substitute (fun _ => "search") "/api/v1/dashboard/{dashboard_id}"
    = "/api/v1/dashboard/search" /\
  isAllowedRuntimeRequest (U := BasicLatin.casing)
    "POST" "/api/v1/dashboard/search" = true /\
  isAllowedSpecEndpoint (U := BasicLatin.casing)
    "POST" "/api/v1/dashboard/{dashboard_id}" = false.
Proof.
  split; [simpl; tauto|]. repeat split; reflexivity.
Qed.

End Consistency.

(** ** The guard in front of [fetch] *)

Module ExecutorFacts.
Import JS Allowlist Executor.

Section WithHost.
Context {U : UpperCasing} {H : Host}.

Lemma request_denied (config : DatadogConfig) (options : DatadogRequestOptions) :
  isAllowedRuntimeRequest (opt_method options) (opt_path options) = false ->
  request config options =
  ([], Thrown (blockedMessage (opt_method options) (opt_path options))).
Proof. intros Hdeny. unfold request. now rewrite Hdeny. Qed.

Lemma request_event_allowed (config : DatadogConfig) (options : DatadogRequestOptions)
    (ev : Event) :
  In ev (fst (request config options)) ->
  isAllowedRuntimeRequest (opt_method options) (opt_path options) = true.
Proof.
  destruct (isAllowedRuntimeRequest (opt_method options) (opt_path options)) eqn:Hp;
    [reflexivity|].
  rewrite request_denied by assumption. simpl. tauto.
Qed.

Lemma fetchAndRead_log (url : URL) (method : string)
    (headers : list (string * string)) (requestBody : option string) :
  fst (fetchAndRead url method headers requestBody) =
  [Fetch (URL_toString url) method headers requestBody].
Proof.
  unfold fetchAndRead, bind, emit, lift, ret, throw.
  destruct (fetch _ _ _ _) as [response|message]; [|reflexivity].
  destruct (response_ok response); simpl; [|reflexivity].
  destruct (includes _ _).
  - destruct (response_json response); reflexivity.
  - destruct (response_text response); reflexivity.
Qed.

(** An allowed request does go on: the URL is built, and when it is
    well-formed and the body serialises, [fetch] is called between setting
    and clearing the timer. *)
Lemma request_allowed_log (config : DatadogConfig)
    (options : DatadogRequestOptions) (url : URL) (requestBody : option string) :
  isAllowedRuntimeRequest (opt_method options) (opt_path options) = true ->
  URL_new ("https://api." ++ site config ++ opt_path options) = Returned url ->
  JSON_stringify (opt_body options) = Returned requestBody ->
  exists headers body,
    fst (request config options) =
    [ NewURL ("https://api." ++ site config ++ opt_path options);
      SetTimeout 30000%N;
      Fetch (URL_toString (setQuery url (opt_query options)))
            (opt_method options) headers body;
      ClearTimeout ].
Proof.
  intros Hp Hurl Hjson. unfold request. rewrite Hp.
  cbn -[String.append fetchAndRead]. rewrite Hurl.
  cbn -[String.append fetchAndRead].
  destruct (truthy (opt_body options)); cbn -[String.append fetchAndRead].
  - rewrite Hjson. cbn -[String.append fetchAndRead].
    match goal with |- context [fetchAndRead ?u ?m ?h ?b] =>
      pose proof (fetchAndRead_log u m h b) as Hlog;
      destruct (fetchAndRead u m h b) as [log r]; exists h, b end.
    simpl in Hlog. subst log. reflexivity.
  - match goal with |- context [fetchAndRead ?u ?m ?h ?b] =>
      pose proof (fetchAndRead_log u m h b) as Hlog;
      destruct (fetchAndRead u m h b) as [log r]; exists h, b end.
    simpl in Hlog. subst log. reflexivity.
Qed.

(** C6. When the runtime guard answers false, [datadog.request] throws an
    error whose message names the method and the path and says that the
    pair is not in the write allowlist, and it has done nothing else by
    then: no URL was built and [fetch] was not called.  A call to [fetch],
    like the building of the URL, is only ever seen on a request that the
    guard allowed. *)
Theorem denied_request_throws_before_io (config : DatadogConfig)
    (options : DatadogRequestOptions) :
  (isAllowedRuntimeRequest (opt_method options) (opt_path options) = false ->
   request config options =
     ([], Thrown ("Blocked: " ++ opt_method options ++ " " ++ opt_path options ++
                  " is not in the write allowlist. Only GET/HEAD and specific notebook/dashboard operations are permitted."))) /\
  (forall href method headers body,
     In (Fetch href method headers body) (fst (request config options)) ->
     isAllowedRuntimeRequest (opt_method options) (opt_path options) = true) /\
  (forall input,
     In (NewURL input) (fst (request config options)) ->
     isAllowedRuntimeRequest (opt_method options) (opt_path options) = true).
Proof.
  split; [exact (request_denied config options)|].
  split; intros; eapply request_event_allowed; eassumption.
Qed.

End WithHost.

End ExecutorFacts.

(** ** The assertions of src/allowlist.test.ts and src/executor.test.ts,
       run on the embedding with Basic Latin upper-casing *)

Module TestSuite.
Import JS Allowlist Executor Offline.

Example spec_allows_all_GET :
  specEndpoint "get" "/api/v1/monitor" = true /\
  specEndpoint "GET" "/api/v2/logs/events/search" = true.
Proof. split; reflexivity. Qed.

Example spec_allows_all_HEAD :
  specEndpoint "head" "/api/v1/anything" = true /\
  specEndpoint "HEAD" "/api/v2/anything" = true.
Proof. split; reflexivity. Qed.

Example spec_allows_allowlisted_writes :
  specEndpoint "POST" "/api/v1/notebooks" = true /\
  specEndpoint "post" "/api/v1/dashboard" = true /\
  specEndpoint "PUT" "/api/v1/notebooks/{notebook_id}" = true /\
  specEndpoint "PUT" "/api/v1/dashboard/{dashboard_id}" = true /\
  specEndpoint "DELETE" "/api/v1/notebooks/{notebook_id}" = true /\
  specEndpoint "DELETE" "/api/v1/dashboard/{dashboard_id}" = true.
Proof. repeat split; reflexivity. Qed.

Example spec_blocks_other_writes :
  specEndpoint "POST" "/api/v1/monitor" = false /\
  specEndpoint "POST" "/api/v2/security_monitoring/rules" = false /\
  specEndpoint "DELETE" "/api/v2/security_monitoring/rules/{id}" = false /\
  specEndpoint "DELETE" "/api/v1/monitor/{monitor_id}" = false /\
  specEndpoint "PATCH" "/api/v2/incidents/{id}" = false.
Proof. repeat split; reflexivity. Qed.

Example runtime_allows_reads_and_allowlisted_writes :
  runtimeRequest "GET" "/api/v1/monitor" = true /\
  runtimeRequest "GET" "/api/v2/logs/events/search" = true /\
  runtimeRequest "POST" "/api/v1/notebooks" = true /\
  runtimeRequest "POST" "/api/v1/dashboard" = true /\
  runtimeRequest "PUT" "/api/v1/notebooks/12345" = true /\
  runtimeRequest "PUT" "/api/v1/dashboard/abc-def" = true /\
  runtimeRequest "DELETE" "/api/v1/notebooks/99" = true /\
  runtimeRequest "DELETE" "/api/v1/dashboard/dash-123" = true.
Proof. repeat split; reflexivity. Qed.

Example runtime_blocks_other_writes :
  runtimeRequest "POST" "/api/v1/monitor" = false /\
  runtimeRequest "DELETE" "/api/v2/security_monitoring/rules/abc" = false /\
  runtimeRequest "PUT" "/api/v1/monitor/123" = false /\
  runtimeRequest "PUT" "/api/v1/notebooks/123/extra" = false /\
  runtimeRequest "DELETE" "/api/v1/notebooks" = false.
Proof. repeat split; reflexivity. Qed.

Example executeCode_blocks_DELETE :
  request (U := BasicLatin.casing) (H := Offline.host) Offline.config
    (mkOptions (H := Offline.host) "DELETE" "/api/v2/security_monitoring/rules/abc" None None)
  = ([], Thrown "Blocked: DELETE /api/v2/security_monitoring/rules/abc is not in the write allowlist. Only GET/HEAD and specific notebook/dashboard operations are permitted.").
Proof. reflexivity. Qed.

Example executeCode_passes_GET :
  request (U := BasicLatin.casing) (H := Offline.host) Offline.config
    (mkOptions (H := Offline.host) "GET" "/api/v1/monitor" None None)
  = ([ NewURL "https://api.datadoghq.com/api/v1/monitor";
       SetTimeout 30000%N;
       Fetch "https://api.datadoghq.com/api/v1/monitor" "GET"
         [("DD-API-KEY", "test-api-key"); ("DD-APPLICATION-KEY", "test-app-key")] None;
       ClearTimeout ],
     Thrown "fetch failed").
Proof. reflexivity. Qed.

End TestSuite.

(** ** The theorems at concrete inputs *)

Module Instances.
Import JS Allowlist Executor Design PolicyFacts Consistency ExecutorFacts.

(** No entry matches the search path: the PUT notebook entry. *)
Lemma isAllowedRuntimeRequest_decision_at_search :
  In (mkEntry "PUT" "/api/v1/notebooks/{notebook_id}") WRITE_ALLOWLIST /\
  matchPathPattern "/api/v1/notebooks/{notebook_id}" "/api/v2/logs/events/search" = false.
Proof.
  split; [simpl; tauto|].
  apply (proj2 (proj2 (proj2 (isAllowedRuntimeRequest_decision (U := BasicLatin.casing))))
           (mkEntry "PUT" "/api/v1/notebooks/{notebook_id}")).
  simpl; tauto.
Defined.

(** PUT on notebook 48213, generated from the notebook template. *)
Lemma generated_path_consistency_at_notebook :
  (forall name : string, validValue ((fun _ => "48213") name) = true) /\
  In "/api/v1/notebooks/{notebook_id}" (map path WRITE_ALLOWLIST) /\
  isAllowedRuntimeRequest (U := BasicLatin.casing) "put"
    (substitute (fun _ => "48213") "/api/v1/notebooks/{notebook_id}") = true.
Proof.
  assert (Hvalid : forall name : string, validValue ((fun _ => "48213") name) = true)
    by (intros name; reflexivity).
  assert (Hin : In "/api/v1/notebooks/{notebook_id}" (map path WRITE_ALLOWLIST))
    by (simpl; tauto).
  split; [exact Hvalid|]. split; [exact Hin|].
  apply (proj1 (proj2 (generated_path_consistency (U := BasicLatin.casing)
                         (fun _ => "48213") "/api/v1/notebooks/{notebook_id}" "put"
                         Hvalid Hin))).
  reflexivity.
Defined.

(** "gEt" on the empty path. *)
Lemma read_methods_always_allowed_at_mixed_case :
  spelledAs "GET" "gEt" = true /\
  isAllowedSpecEndpoint (U := BasicLatin.casing) "gEt" EmptyString = true /\
  isAllowedRuntimeRequest (U := BasicLatin.casing) "gEt" EmptyString = true.
Proof.
  split; [reflexivity|].
  apply (read_methods_always_allowed (U := BasicLatin.casing) "gEt" EmptyString).
  left; reflexivity.
Defined.

(** The first case of src/executor.test.ts: DELETE on a security rule. *)
Lemma denied_request_throws_before_io_at_DELETE :
  isAllowedRuntimeRequest (U := BasicLatin.casing)
    "DELETE" "/api/v2/security_monitoring/rules/abc" = false /\
  request (U := BasicLatin.casing) (H := Offline.host) Offline.config
    (mkOptions (H := Offline.host) "DELETE" "/api/v2/security_monitoring/rules/abc" None None)
  = ([], Thrown "Blocked: DELETE /api/v2/security_monitoring/rules/abc is not in the write allowlist. Only GET/HEAD and specific notebook/dashboard operations are permitted.").
Proof.
  split; [reflexivity|].
  apply (proj1 (denied_request_throws_before_io (U := BasicLatin.casing)
                  (H := Offline.host) Offline.config
                  (mkOptions (H := Offline.host) "DELETE"
                     "/api/v2/security_monitoring/rules/abc" None None))).
  reflexivity.
Defined.

(** PATCH on the empty path. *)
Lemma malformed_input_denied_at_PATCH :
  toUpperCase (UpperCasing := BasicLatin.casing) "PATCH" <> "GET" /\
  toUpperCase (UpperCasing := BasicLatin.casing) "PATCH" <> "HEAD" /\
  isAllowedSpecEndpoint (U := BasicLatin.casing) "PATCH" EmptyString = false /\
  isAllowedRuntimeRequest (U := BasicLatin.casing) "PATCH" EmptyString = false.
Proof.
  assert (Hg : toUpperCase (UpperCasing := BasicLatin.casing) "PATCH" <> "GET")
    by (simpl; discriminate).
  assert (Hh : toUpperCase (UpperCasing := BasicLatin.casing) "PATCH" <> "HEAD")
    by (simpl; discriminate).
  split; [exact Hg|]. split; [exact Hh|].
  exact (proj2 (malformed_input_denied (U := BasicLatin.casing)) "PATCH" Hg Hh).
Defined.

(** The table reversed and followed by itself: reordered and duplicated. *)
Lemma allowlist_is_a_set_at_shuffled_table :
  (forall e, In e WRITE_ALLOWLIST <-> In e (rev WRITE_ALLOWLIST ++ WRITE_ALLOWLIST)) /\
  isAllowedSpecEndpoint_on (U := BasicLatin.casing)
    (rev WRITE_ALLOWLIST ++ WRITE_ALLOWLIST) "delete" "/api/v1/dashboard/{dashboard_id}"
  = isAllowedSpecEndpoint (U := BasicLatin.casing) "delete" "/api/v1/dashboard/{dashboard_id}" /\
  isAllowedRuntimeRequest_on (U := BasicLatin.casing)
    (rev WRITE_ALLOWLIST ++ WRITE_ALLOWLIST) "delete" "/api/v1/dashboard/{dashboard_id}"
  = isAllowedRuntimeRequest (U := BasicLatin.casing) "delete" "/api/v1/dashboard/{dashboard_id}".
Proof.
  assert (Hsame : forall e, In e WRITE_ALLOWLIST <->
                            In e (rev WRITE_ALLOWLIST ++ WRITE_ALLOWLIST))
    by (intros e; simpl; tauto).
  split; [exact Hsame|].
  exact (allowlist_is_a_set (U := BasicLatin.casing) _ Hsame
           "delete" "/api/v1/dashboard/{dashboard_id}").
Defined.

(** DELETE on the dashboard template, passed verbatim. *)
Lemma catalog_allowed_is_runtime_allowed_at_template :
  isAllowedSpecEndpoint (U := BasicLatin.casing)
    "DELETE" "/api/v1/dashboard/{dashboard_id}" = true /\
  isAllowedRuntimeRequest (U := BasicLatin.casing)
    "DELETE" "/api/v1/dashboard/{dashboard_id}" = true.
Proof.
  split; [reflexivity|].
  apply (proj1 (proj2 (catalog_allowed_is_runtime_allowed (U := BasicLatin.casing)))
           "DELETE" "/api/v1/dashboard/{dashboard_id}").
  reflexivity.
Defined.

End Instances.

(** ** More on strings: suffixes, and the way back from segments *)

Module StringFacts.
Import JS Design JSFacts.

Lemma length_append (a b : string) :
  String.length (a ++ b) = String.length a + String.length b.
Proof. induction a as [|c a IH]; simpl; [reflexivity | now rewrite IH]. Qed.

Lemma append_assoc (a b c : string) : (a ++ b) ++ c = a ++ (b ++ c).
Proof. induction a as [|x a IH]; simpl; [reflexivity | now rewrite IH]. Qed.

Lemma append_nil_r (s : string) : s ++ EmptyString = s.
Proof. induction s as [|c s IH]; simpl; [reflexivity | now rewrite IH]. Qed.

Lemma substring_whole (s : string) : substring 0 (String.length s) s = s.
Proof. induction s as [|c s IH]; simpl; [reflexivity | now rewrite IH]. Qed.

Lemma substring_skip (a s : string) (m : nat) :
  substring (String.length a) m (a ++ s) = substring 0 m s.
Proof. induction a as [|c a IH]; simpl; [reflexivity | exact IH]. Qed.

Lemma substring_cut (s : string) (n : nat) :
  n <= String.length s ->
  s = substring 0 n s ++ substring n (String.length s - n) s.
Proof.
  revert n. induction s as [|c s IH]; intros n Hn; simpl in *.
  - destruct n; reflexivity.
  - destruct n as [|n]; simpl.
    + now rewrite substring_whole.
    + f_equal. apply IH. lia.
Qed.

Lemma endsWith_append (a s : string) : endsWith (a ++ s) s = true.
Proof.
  unfold endsWith. rewrite length_append.
  destruct (String.length a + String.length s <? String.length s)%nat eqn:Hlt.
  - apply Nat.ltb_lt in Hlt. lia.
  - replace (String.length a + String.length s - String.length s)
      with (String.length a) by lia.
    rewrite substring_skip, substring_whole. apply String.eqb_refl.
Qed.

Lemma endsWith_inv (t s : string) :
  endsWith t s = true -> exists pre, t = pre ++ s.
Proof.
  unfold endsWith.
  destruct (String.length t <? String.length s)%nat eqn:Hlt; [discriminate|].
  apply Nat.ltb_ge in Hlt. intros Heq. apply String.eqb_eq in Heq.
  exists (substring 0 (String.length t - String.length s) t).
  assert (Hle : String.length t - String.length s <= String.length t) by lia.
  pose proof (substring_cut t _ Hle) as Hcut.
  replace (String.length t - (String.length t - String.length s))
    with (String.length s) in Hcut by lia.
  now rewrite Heq in Hcut.
Qed.

(** Joining the segments of a split gives the string back. *)
Lemma join_split (sep : ascii) (s : string) : join sep (split sep s) = s.
Proof.
  induction s as [|c s IH]; [reflexivity|].
  rewrite split_cons.
  pose proof (split_not_nil sep s) as Hne.
  destruct (Ascii.eqb c sep) eqn:Hc.
  - apply Ascii.eqb_eq in Hc. subst c.
    destruct (split sep s) as [|seg segs] eqn:Hs; [congruence|].
    change (join sep (EmptyString :: seg :: segs))
      with (String sep (join sep (seg :: segs))).
    now rewrite IH.
  - destruct (split sep s) as [|seg segs] eqn:Hs; [congruence|].
    simpl hd; simpl tl. rewrite <- IH.
    destruct segs; reflexivity.
Qed.

Lemma split_injective (sep : ascii) (a b : string) :
  split sep a = split sep b -> a = b.
Proof.
  intros Heq. rewrite <- (join_split sep a), <- (join_split sep b). now rewrite Heq.
Qed.

(** Splitting goes through a separator wherever it stands. *)
Lemma split_append (sep : ascii) (a b : string) :
  split sep (a ++ String sep b) = (split sep a ++ split sep b)%list.
Proof.
  induction a as [|c a IH]; simpl.
  - now rewrite split_cons, Ascii.eqb_refl.
  - rewrite !split_cons, IH.
    pose proof (split_not_nil sep a) as Hne.
    destruct (Ascii.eqb c sep); [reflexivity|].
    destruct (split sep a); [congruence | reflexivity].
Qed.

Lemma join_snoc (sep : ascii) (segs : list string) (w : string) :
  segs <> [] ->
  join sep (segs ++ [w]) = join sep segs ++ String sep w.
Proof.
  induction segs as [|seg rest IH]; intros Hne; [congruence|].
  destruct rest as [|seg' rest'].
  - reflexivity.
  - change (join sep ((seg :: seg' :: rest') ++ [w]))
      with (seg ++ String sep (join sep ((seg' :: rest') ++ [w]))).
    rewrite IH by discriminate.
    change (join sep (seg :: seg' :: rest'))
      with (seg ++ String sep (join sep (seg' :: rest'))).
    now rewrite append_assoc.
Qed.

Lemma nth_error_ext_eq {A : Type} (l l' : list A) :
  List.length l = List.length l' ->
  (forall i x y, nth_error l i = Some x -> nth_error l' i = Some y -> x = y) ->
  l = l'.
Proof.
  revert l'. induction l as [|a l IH]; intros [|a' l'] Hlen Hnth;
    try discriminate; [reflexivity|].
  f_equal.
  - exact (Hnth 0 a a' eq_refl eq_refl).
  - apply IH; [simpl in Hlen; lia|].
    intros i x y Hx Hy. exact (Hnth (S i) x y Hx Hy).
Qed.

End StringFacts.

(** ** What the policy lets through, write method by write method *)

Module PolicyExtras.
Import JS Allowlist Design JSFacts MatcherFacts PolicyFacts Consistency StringFacts.

Lemma literal_segment_agrees (pat con : string) :
  isParam pat = false -> segmentAgrees pat con -> pat = con.
Proof.
  intros Hp [(Hs & He & _) | Heq]; [|assumption].
  unfold isParam in Hp. rewrite Hs, He in Hp. discriminate.
Qed.

Lemma matchPathPattern_literal (template concrete : string) :
  forallb (fun seg => negb (isParam seg)) (split "/" template) = true ->
  matchPathPattern template concrete = true <-> concrete = template.
Proof.
  intros Hlit. split.
  - intros Hm. apply matchPathPattern_spec in Hm as [Hlen Hall].
    symmetry. apply (split_injective "/").
    apply nth_error_ext_eq; [assumption|].
    intros i pat con Hpat Hcon.
    apply literal_segment_agrees; [|now apply (Hall i)].
    rewrite forallb_forall in Hlit.
    apply negb_true_iff, Hlit. eapply nth_error_In; eassumption.
  - intros ->. apply matchPathPattern_refl.
Qed.

(** A template of four literal segments and one parameter matches the
    paths that keep the four and fill the fifth. *)
Lemma match_one_parameter (t a b c d pname p : string) :
  split "/" t = [a; b; c; d; pname] ->
  isParam a = false -> isParam b = false -> isParam c = false ->
  isParam d = false -> isParam pname = true ->
  matchPathPattern t p = true <->
  exists id, validValue id = true /\ p = join "/" [a; b; c; d; id].
Proof.
  intros Ht Ha Hb Hc Hd Hp. split.
  - intros Hm. apply matchPathPattern_spec in Hm as [Hlen Hall].
    rewrite Ht in Hlen, Hall.
    pose proof (split_segments_sepFree "/" p) as Hfree.
    pose proof (join_split "/" p) as Hjoin.
    destruct (split "/" p) as [|s0 [|s1 [|s2 [|s3 [|s4 [|s5 rest]]]]]];
      try discriminate Hlen.
    pose proof (literal_segment_agrees _ _ Ha (Hall 0 _ _ eq_refl eq_refl)) as H0.
    pose proof (literal_segment_agrees _ _ Hb (Hall 1 _ _ eq_refl eq_refl)) as H1.
    pose proof (literal_segment_agrees _ _ Hc (Hall 2 _ _ eq_refl eq_refl)) as H2.
    pose proof (literal_segment_agrees _ _ Hd (Hall 3 _ _ eq_refl eq_refl)) as H3.
    pose proof (Hall 4 _ _ eq_refl eq_refl) as H4.
    subst s0 s1 s2 s3. exists s4. split; [|now symmetry].
    unfold validValue. apply andb_true_iff. split.
    + apply Nat.ltb_lt. destruct H4 as [(_ & _ & Hne) | <-]; [lia|].
      apply isParam_nonempty in Hp. lia.
    + rewrite forallb_forall in Hfree. apply Hfree. simpl. tauto.
  - intros (id & Hid & ->).
    replace (join "/" [a; b; c; d; id]) with (substitute (fun _ => id) t).
    + apply matchPathPattern_substitute. intros _. exact Hid.
    + unfold substitute. rewrite Ht. simpl map. unfold instantiate.
      now rewrite Ha, Hb, Hc, Hd, Hp.
Qed.

Lemma match_notebook_template (p : string) :
  matchPathPattern "/api/v1/notebooks/{notebook_id}" p = true <->
  exists id, validValue id = true /\ p = "/api/v1/notebooks/" ++ id.
Proof.
  exact (match_one_parameter "/api/v1/notebooks/{notebook_id}"
           "" "api" "v1" "notebooks" "{notebook_id}" p
           eq_refl eq_refl eq_refl eq_refl eq_refl eq_refl).
Qed.

Lemma match_dashboard_template (p : string) :
  matchPathPattern "/api/v1/dashboard/{dashboard_id}" p = true <->
  exists id, validValue id = true /\ p = "/api/v1/dashboard/" ++ id.
Proof.
  exact (match_one_parameter "/api/v1/dashboard/{dashboard_id}"
           "" "api" "v1" "dashboard" "{dashboard_id}" p
           eq_refl eq_refl eq_refl eq_refl eq_refl eq_refl).
Qed.

Lemma safe_suffix_survives_substitution (value : string -> string) (t w : string) :
  sepFree "/" w = true -> isParam w = false ->
  endsWith t (String "/" w) = true ->
  endsWith (substitute value t) (String "/" w) = true.
Proof.
  intros Hfree Hlit Hends.
  apply endsWith_inv in Hends as [pre ->].
  unfold substitute.
  rewrite split_append, (split_sepFree "/" w Hfree), map_app.
  simpl map. unfold instantiate at 2. rewrite Hlit.
  rewrite join_snoc.
  - apply endsWith_append.
  - pose proof (split_not_nil "/" pre) as Hne.
    destruct (split "/" pre); [congruence | discriminate].
Qed.

Lemma safe_suffix_shape (suffix : string) :
  In suffix SAFE_POST_SUFFIXES ->
  exists w, suffix = String "/" w /\ sepFree "/" w = true /\ isParam w = false.
Proof.
  intros Hin. simpl in Hin.
  destruct Hin as [<- | [<- | [<- | [<- | [<- | []]]]]];
    eexists; repeat split; reflexivity.
Qed.

Section WithUpperCasing.
Context {U : UpperCasing}.

(** X1. A method whose upper-case form is none of GET, HEAD, POST, PUT and
    DELETE (PATCH, OPTIONS, a misspelling) is denied by both entry points
    on every path. *)
Theorem other_methods_denied (m p : string) :
  toUpperCase m <> "GET" -> toUpperCase m <> "HEAD" ->
  toUpperCase m <> "POST" -> toUpperCase m <> "PUT" ->
  toUpperCase m <> "DELETE" ->
  isAllowedSpecEndpoint m p = false /\ isAllowedRuntimeRequest m p = false.
Proof.
  intros Hget Hhead Hpost Hput Hdel.
  assert (Hentry : forall e, In e WRITE_ALLOWLIST -> method e <> toUpperCase m).
  { intros e He. simpl in He.
    destruct He as [<- | [<- | [<- | [<- | [<- | [<- | []]]]]]]; simpl; congruence. }
  split.
  - destruct (isAllowedSpecEndpoint m p) eqn:E; [|reflexivity].
    apply isAllowedSpecEndpoint_on_spec in E
      as [[Hg | Hh] | [[Hp _] | (e & He & Hm & _)]];
      try congruence. now apply Hentry in He.
  - destruct (isAllowedRuntimeRequest m p) eqn:E; [|reflexivity].
    apply isAllowedRuntimeRequest_on_spec in E
      as [[Hg | Hh] | [[Hp _] | (e & He & Hm & _)]];
      try congruence. now apply Hentry in He.
Qed.

(** X2. At call time a PUT or DELETE is allowed on exactly the paths
    "/api/v1/notebooks/<id>" and "/api/v1/dashboard/<id>" whose <id> is not
    empty and holds no "/": nothing shorter, nothing longer, no empty id. *)
Theorem runtime_put_delete_paths (m p : string) :
  toUpperCase m = "PUT" \/ toUpperCase m = "DELETE" ->
  isAllowedRuntimeRequest m p = true <->
  exists id, validValue id = true /\
             (p = "/api/v1/notebooks/" ++ id \/ p = "/api/v1/dashboard/" ++ id).
Proof.
  intros Hm. unfold isAllowedRuntimeRequest.
  rewrite isAllowedRuntimeRequest_on_spec. split.
  - intros [[Hg | Hh] | [[Hp _] | (e & He & Hme & Hmatch)]];
      try (destruct Hm; congruence).
    simpl in He.
    destruct He as [<- | [<- | [<- | [<- | [<- | [<- | []]]]]]];
      simpl in Hme, Hmatch;
      try (destruct Hm; congruence);
      try (apply match_notebook_template in Hmatch as (id & Hid & ->);
           exists id; tauto);
      try (apply match_dashboard_template in Hmatch as (id & Hid & ->);
           exists id; tauto).
  - intros (id & Hid & Hp). right; right.
    destruct Hm as [Hm | Hm]; destruct Hp as [-> | ->].
    + exists (mkEntry "PUT" "/api/v1/notebooks/{notebook_id}").
      split; [simpl; tauto|]. split; [now rewrite Hm|].
      apply match_notebook_template. now exists id.
    + exists (mkEntry "PUT" "/api/v1/dashboard/{dashboard_id}").
      split; [simpl; tauto|]. split; [now rewrite Hm|].
      apply match_dashboard_template. now exists id.
    + exists (mkEntry "DELETE" "/api/v1/notebooks/{notebook_id}").
      split; [simpl; tauto|]. split; [now rewrite Hm|].
      apply match_notebook_template. now exists id.
    + exists (mkEntry "DELETE" "/api/v1/dashboard/{dashboard_id}").
      split; [simpl; tauto|]. split; [now rewrite Hm|].
      apply match_dashboard_template. now exists id.
Qed.

(** X3. At call time a POST is allowed on exactly the paths that end with a
    safe-read suffix and the two paths "/api/v1/notebooks" and
    "/api/v1/dashboard" themselves; a trailing "/" or any other change to
    these two is denied unless a suffix applies. *)
Theorem runtime_post_paths (m p : string) :
  toUpperCase m = "POST" ->
  isAllowedRuntimeRequest m p = true <->
  (exists suffix, In suffix SAFE_POST_SUFFIXES /\ endsWith p suffix = true) \/
  p = "/api/v1/notebooks" \/ p = "/api/v1/dashboard".
Proof.
  intros Hm. unfold isAllowedRuntimeRequest.
  rewrite isAllowedRuntimeRequest_on_spec. split.
  - intros [[Hg | Hh] | [[_ Hs] | (e & He & Hme & Hmatch)]];
      try congruence; [now left|].
    right. simpl in He.
    destruct He as [<- | [<- | [<- | [<- | [<- | [<- | []]]]]]];
      simpl in Hme, Hmatch; try congruence;
      apply matchPathPattern_literal in Hmatch; try reflexivity; tauto.
  - intros [Hs | [-> | ->]].
    + right; left. tauto.
    + right; right. exists (mkEntry "POST" "/api/v1/notebooks").
      split; [simpl; tauto|]. split; [now rewrite Hm | reflexivity].
    + right; right. exists (mkEntry "POST" "/api/v1/dashboard").
      split; [simpl; tauto|]. split; [now rewrite Hm | reflexivity].
Qed.

(** X4. A template without parameters matches one path only, itself: the
    matcher is string equality on it. *)
Theorem literal_template_matches_itself_only (template concrete : string) :
  forallb (fun seg => negb (isParam seg)) (split "/" template) = true ->
  matchPathPattern template concrete = true <-> concrete = template.
Proof. exact (matchPathPattern_literal template concrete). Qed.

(** X5. The safe-POST rule looks at the end of the path only: whatever
    stands before it, a path that ends with a safe-read suffix is allowed
    for POST by both entry points. *)
Theorem safe_suffix_always_allowed (m p suffix : string) :
  toUpperCase m = "POST" -> In suffix SAFE_POST_SUFFIXES ->
  isAllowedSpecEndpoint m (p ++ suffix) = true /\
  isAllowedRuntimeRequest m (p ++ suffix) = true.
Proof.
  intros Hm Hin. split.
  - apply isAllowedSpecEndpoint_on_spec. right; left.
    split; [assumption|]. exists suffix. split; [assumption|].
    apply endsWith_append.
  - apply isAllowedRuntimeRequest_on_spec. right; left.
    split; [assumption|]. exists suffix. split; [assumption|].
    apply endsWith_append.
Qed.

Lemma spec_allowed_generated_runtime (value : string -> string) (m t : string) :
  (forall name, validValue (value name) = true) ->
  isAllowedSpecEndpoint m t = true ->
  isAllowedRuntimeRequest m (substitute value t) = true.
Proof.
  intros Hvalid Hspec. unfold isAllowedRuntimeRequest.
  apply isAllowedRuntimeRequest_on_spec.
  apply isAllowedSpecEndpoint_on_spec in Hspec
    as [Hread | [[Hpost (suffix & Hin & Hends)] | (e & He & Hm & <-)]].
  - now left.
  - right; left. split; [assumption|]. exists suffix. split; [assumption|].
    destruct (safe_suffix_shape suffix Hin) as (w & -> & Hfree & Hlit).
    now apply safe_suffix_survives_substitution.
  - right; right. exists e. repeat split; try assumption.
    now apply matchPathPattern_substitute.
Qed.

(** X6. Whatever the catalog filter keeps can be called: if a method is
    kept on a template, any template, then the runtime guard allows that
    method on every path generated from the template with non-empty values
    that hold no "/". *)
Theorem catalog_kept_is_callable (value : string -> string) (m t : string) :
  (forall name, validValue (value name) = true) ->
  isAllowedSpecEndpoint m t = true ->
  isAllowedRuntimeRequest m (substitute value t) = true.
Proof. exact (spec_allowed_generated_runtime value m t). Qed.

(** X7. The earlier revision of the policy (no safe-POST tier) gives equal
    answers at catalog time on a template of the table and at call time on
    any path generated from it; the later revision answers as the earlier
    one does, or true by the safe-POST rule. *)
Theorem earlier_revision_consistent (value : string -> string) (t m : string) :
  (forall name, validValue (value name) = true) ->
  In t (map path WRITE_ALLOWLIST) ->
  AllowlistEarlier.isAllowedRuntimeRequest m (substitute value t) =
    AllowlistEarlier.isAllowedSpecEndpoint m t /\
  (forall p,
     isAllowedRuntimeRequest m p =
       AllowlistEarlier.isAllowedRuntimeRequest m p || isSafePost (toUpperCase m) p /\
     isAllowedSpecEndpoint m p =
       AllowlistEarlier.isAllowedSpecEndpoint m p || isSafePost (toUpperCase m) p).
Proof.
  intros Hvalid Ht. apply in_map_iff in Ht as (e & <- & He). split.
  - unfold AllowlistEarlier.isAllowedRuntimeRequest,
      AllowlistEarlier.isAllowedSpecEndpoint.
    destruct (Set_has READ_METHODS (toUpperCase m)); [reflexivity|].
    apply some_agree_on_members. intros e' He'.
    now rewrite matchPathPattern_substitute_table.
  - intros p.
    unfold isAllowedRuntimeRequest, isAllowedRuntimeRequest_on,
      isAllowedSpecEndpoint, isAllowedSpecEndpoint_on,
      AllowlistEarlier.isAllowedRuntimeRequest,
      AllowlistEarlier.isAllowedSpecEndpoint.
    destruct (Set_has READ_METHODS (toUpperCase m)); [split; reflexivity|].
    destruct (isSafePost (toUpperCase m) p);
      rewrite ?orb_true_r, ?orb_false_r; split; reflexivity.
Qed.

End WithUpperCasing.

End PolicyExtras.

(** ** What a request does after the guard *)

Module ExecutorExtras.
Import JS Allowlist Executor ExecutorTerms ExecutorFacts.

Section WithHost.
Context {U : UpperCasing} {H : Host}.

(** [request] once the guard has passed and the URL has been built. *)
Lemma request_allowed_unfold (config : DatadogConfig)
    (options : DatadogRequestOptions) (url : URL) :
  isAllowedRuntimeRequest (opt_method options) (opt_path options) = true ->
  URL_new (requestInput config options) = Returned url ->
  request config options =
  match
    (if truthy (opt_body options) then
       match JSON_stringify (opt_body options) with
       | Returned s =>
           Returned ((credentials config ++ [("Content-Type", "application/json")])%list, s)
       | Thrown message => Thrown message
       end
     else Returned (credentials config, None))
  with
  | Returned hb =>
      let (log, r) := fetchAndRead (setQuery url (opt_query options))
                        (opt_method options) (fst hb) (snd hb) in
      ((NewURL (requestInput config options) :: SetTimeout 30000%N :: log ++ [ClearTimeout])%list, r)
  | Thrown message => ([NewURL (requestInput config options)], Thrown message)
  end.
Proof.
  intros Hp Hurl. unfold request, requestInput, credentials in *. rewrite Hp.
  cbn -[String.append fetchAndRead]. rewrite Hurl.
  cbn -[String.append fetchAndRead].
  destruct (truthy (opt_body options)); cbn -[String.append fetchAndRead].
  - destruct (JSON_stringify (opt_body options)); cbn -[String.append fetchAndRead];
      [|reflexivity].
    destruct (fetchAndRead _ _ _ _) as [log r]. reflexivity.
  - destruct (fetchAndRead _ _ _ _) as [log r]. reflexivity.
Qed.

Lemma request_url_invalid (config : DatadogConfig)
    (options : DatadogRequestOptions) (message : string) :
  isAllowedRuntimeRequest (opt_method options) (opt_path options) = true ->
  URL_new (requestInput config options) = Thrown message ->
  request config options = ([NewURL (requestInput config options)], Thrown message).
Proof.
  intros Hp Hurl. unfold request, requestInput in *. rewrite Hp.
  cbn -[String.append fetchAndRead]. now rewrite Hurl.
Qed.

Lemma fetchAndRead_split (url : URL) (method : string)
    (headers : list (string * string)) (requestBody : option string) :
  fetchAndRead url method headers requestBody =
  ([Fetch (URL_toString url) method headers requestBody],
   snd (fetchAndRead url method headers requestBody)).
Proof.
  rewrite <- fetchAndRead_log. now destruct (fetchAndRead _ _ _ _).
Qed.

(** X8. Every run of [request] leaves one of three traces: nothing at all;
    the building of the URL "https://api.<site><path>" alone; or that, the
    30 s timer, one [fetch] with the method asked for and both credential
    headers, and the clearing of the timer.  So there is never a second
    call, never a call without the keys, and the timer never stays set,
    however the call ends. *)
Theorem request_traces (config : DatadogConfig) (options : DatadogRequestOptions) :
  fst (request config options) = [] \/
  fst (request config options) = [NewURL (requestInput config options)] \/
  exists href headers body,
    fst (request config options) =
      [ NewURL (requestInput config options); SetTimeout 30000%N;
        Fetch href (opt_method options) headers body; ClearTimeout ] /\
    In ("DD-API-KEY", apiKey config) headers /\
    In ("DD-APPLICATION-KEY", appKey config) headers.
Proof.
  destruct (isAllowedRuntimeRequest (opt_method options) (opt_path options)) eqn:Hp.
  2: { left. now rewrite request_denied. }
  right.
  destruct (URL_new (requestInput config options)) as [url|message] eqn:Hurl.
  2: { left. now rewrite (request_url_invalid _ _ message). }
  rewrite (request_allowed_unfold config options url Hp Hurl).
  destruct (truthy (opt_body options)).
  - destruct (JSON_stringify (opt_body options)) as [s|message]; [|now left].
    right. rewrite fetchAndRead_split. simpl fst; simpl snd.
    eexists _, _, _. split; [reflexivity|]. simpl. tauto.
  - right. rewrite fetchAndRead_split. simpl fst; simpl snd.
    eexists _, _, _. split; [reflexivity|]. simpl. tauto.
Qed.


(** X10. If the URL is malformed, or the body cannot be serialised,
    [request] throws that error having built nothing but the URL: no timer
    is set and [fetch] is not called. *)
Theorem request_fails_before_fetch (config : DatadogConfig)
    (options : DatadogRequestOptions) (message : string) :
  isAllowedRuntimeRequest (opt_method options) (opt_path options) = true ->
  URL_new (requestInput config options) = Thrown message \/
  ((exists url, URL_new (requestInput config options) = Returned url) /\
   truthy (opt_body options) = true /\
   JSON_stringify (opt_body options) = Thrown message) ->
  request config options = ([NewURL (requestInput config options)], Thrown message).
Proof.
  intros Hp [Hurl | ([url Hurl] & Hb & Hs)].
  - now apply request_url_invalid.
  - rewrite (request_allowed_unfold config options url Hp Hurl).
    now rewrite Hb, Hs.
Qed.

Lemma fetchAndRead_returned (url : URL) (method : string)
    (headers : list (string * string)) (requestBody : option string)
    (v : JSValue + string) :
  snd (fetchAndRead url method headers requestBody) = Returned v ->
  exists response,
    fetch (URL_toString url) method headers requestBody = Returned response /\
    response_ok response = true /\
    ((exists j, v = inl j /\ response_json response = Returned j) \/
     (exists t, v = inr t /\ response_text response = Returned t)).
Proof.
  unfold fetchAndRead, bind, emit, lift, ret, throw.
  destruct (fetch _ _ _ _) as [response|message]; [|discriminate].
  intros Hv. exists response. split; [reflexivity|].
  destruct (response_ok response); simpl in Hv; [|discriminate].
  split; [reflexivity|].
  destruct (includes _ _).
  - destruct (response_json response) as [j|]; [|discriminate].
    left. exists j. simpl in Hv. split; congruence.
  - destruct (response_text response) as [t|]; [|discriminate].
    right. exists t. simpl in Hv. split; congruence.
Qed.

(** X11. [request] returns a value only from a call that the guard allowed
    and that came back with [response.ok]; the value is then the parsed
    JSON of the response or its text.  A thrown [fetch], a status outside
    2xx and a denied request never yield a value. *)
Theorem request_returns_only_ok_responses (config : DatadogConfig)
    (options : DatadogRequestOptions) (v : JSValue + string) :
  snd (request config options) = Returned v ->
  isAllowedRuntimeRequest (opt_method options) (opt_path options) = true /\
  exists href headers body response,
    In (Fetch href (opt_method options) headers body) (fst (request config options)) /\
    fetch href (opt_method options) headers body = Returned response /\
    response_ok response = true /\
    ((exists j, v = inl j /\ response_json response = Returned j) \/
     (exists t, v = inr t /\ response_text response = Returned t)).
Proof.
  destruct (isAllowedRuntimeRequest (opt_method options) (opt_path options)) eqn:Hp.
  2: { rewrite request_denied by assumption. discriminate. }
  intros Hv. split; [reflexivity|].
  destruct (URL_new (requestInput config options)) as [url|message] eqn:Hurl.
  2: { rewrite (request_url_invalid _ _ message) in Hv by assumption. discriminate. }
  rewrite (request_allowed_unfold config options url Hp Hurl) in Hv |- *.
  destruct (truthy (opt_body options)).
  - destruct (JSON_stringify (opt_body options)) as [s|message]; [|discriminate].
    rewrite fetchAndRead_split in Hv |- *. simpl fst in *; simpl snd in *.
    destruct (fetchAndRead_returned _ _ _ _ v Hv) as (response & Hf & Hok & Hval).
    eexists _, _, _, response. split; [simpl; eauto|]. now split.
  - rewrite fetchAndRead_split in Hv |- *. simpl fst in *; simpl snd in *.
    destruct (fetchAndRead_returned _ _ _ _ v Hv) as (response & Hf & Hok & Hval).
    eexists _, _, _, response. split; [simpl; eauto|]. now split.
Qed.

Lemma setQuery_fold_filter (entries : list (string * QueryValue)) (url : URL) :
  setQuery url (Some entries) = setQuery url (Some (filter isDefined entries)).
Proof.
  unfold setQuery. revert url.
  induction entries as [|[k v] entries IH]; intros url; [reflexivity|].
  simpl. destruct v; simpl; apply IH.
Qed.

(** X12. Query entries whose value is [undefined] are not put on the URL:
    the query sets the same parameters, in the same order, as the query
    with those entries removed, and a query of undefined values only leaves
    the URL as it is. *)
Theorem setQuery_skips_undefined (entries : list (string * QueryValue)) (url : URL) :
  setQuery url (Some entries) = setQuery url (Some (filter isDefined entries)) /\
  (filter isDefined entries = [] -> setQuery url (Some entries) = url).
Proof.
  split; [apply setQuery_fold_filter|].
  intros Hnone. now rewrite setQuery_fold_filter, Hnone.
Qed.

End WithHost.

End ExecutorExtras.

(** ** Staleness of the built catalog *)

Module EnsureSpecFacts.
Import JS.
Import Executor(Outcome, Returned, Thrown).
Import EnsureSpec.

Section WithWorld.
Context {N : Numbers} {W : World}.

Lemma fetchContentLength_eq (url : string) :
  fetchContentLength url = ([HeadFetch url 5000%N], Returned (upstreamLength url)).
Proof.
  unfold fetchContentLength, upstreamLength, bind, emit, ret.
  destruct (head url) as [response|message]; [|reflexivity].
  destruct (head_ok response); simpl; [|reflexivity].
  destruct (head_content_length response); reflexivity.
Qed.

(** The checks on the local files, then the two HEAD requests. *)
Lemma checkStaleness_unfold :
  checkStaleness =
  match manifestFile with
  | Thrown message => ([ReadManifest], Thrown message)
  | Returned None => ([ReadManifest], Returned (Some "no build manifest found"))
  | Returned (Some manifest) =>
      if negb specFilePresent
      then ([ReadManifest; SpecExists], Returned (Some "spec.json missing"))
      else
        match allowlistDigest with
        | Thrown message => ([ReadManifest; SpecExists; HashAllowlist], Thrown message)
        | Returned currentHash =>
            if negb (currentHash =? allowlistHash manifest)
            then ([ReadManifest; SpecExists; HashAllowlist],
                  Returned (Some "allowlist.ts changed"))
            else
              let online := [ReadManifest; SpecExists; HashAllowlist;
                             HeadFetch SPEC_URLS_v1 5000%N;
                             HeadFetch SPEC_URLS_v2 5000%N] in
              if changed (upstreamLength SPEC_URLS_v1) (v1ContentLength manifest)
              then (online, Returned (Some "upstream v1 spec changed"))
              else if changed (upstreamLength SPEC_URLS_v2) (v2ContentLength manifest)
              then (online, Returned (Some "upstream v2 spec changed"))
              else
                match upstreamLength SPEC_URLS_v1, upstreamLength SPEC_URLS_v2 with
                | None, None =>
                    ((online ++
                      [Warn "Could not reach upstream specs to check for updates"])%list,
                     Returned None)
                | _, _ => (online, Returned None)
                end
        end
  end.
Proof.
  unfold checkStaleness, readManifest, specExists, hashFile.
  rewrite !fetchContentLength_eq.
  unfold bind, emit, lift, ret.
  destruct manifestFile as [[manifest|]|message]; try reflexivity.
  destruct specFilePresent; simpl; [|reflexivity].
  destruct allowlistDigest as [currentHash|message]; [|reflexivity].
  destruct (currentHash =? allowlistHash manifest); simpl; [|reflexivity].
  destruct (changed (upstreamLength SPEC_URLS_v1) (v1ContentLength manifest));
    [reflexivity|].
  destruct (changed (upstreamLength SPEC_URLS_v2) (v2ContentLength manifest));
    [reflexivity|].
  destruct (upstreamLength SPEC_URLS_v1), (upstreamLength SPEC_URLS_v2); reflexivity.
Qed.

(** X13. [fetchContentLength] makes one HEAD request with a 5 s limit and
    never throws; it yields no length exactly when the request fails, the
    answer is not ok, or the content-length header is missing, and
    otherwise the header read as a number. *)
Theorem fetchContentLength_never_throws (url : string) :
  fst (fetchContentLength url) = [HeadFetch url 5000%N] /\
  (exists length, snd (fetchContentLength url) = Returned length) /\
  (snd (fetchContentLength url) = Returned None <->
   (exists message, head url = Thrown message) \/
   (exists response, head url = Returned response /\
      (head_ok response = false \/ head_content_length response = None))) /\
  (forall response header,
     head url = Returned response -> head_ok response = true ->
     head_content_length response = Some header ->
     snd (fetchContentLength url) = Returned (Some (Number_of header))).
Proof.
  rewrite fetchContentLength_eq. simpl. split; [reflexivity|].
  split; [eauto|]. unfold upstreamLength. split.
  - destruct (head url) as [response|message].
    + destruct (head_ok response) eqn:Hok.
      * destruct (head_content_length response) as [header|] eqn:Hh; simpl.
        -- split; [discriminate|].
           intros [[message Hm] | (r & Hr & [Hf | Hn])]; try discriminate;
             injection Hr as <-; congruence.
        -- split; [|reflexivity]. intros _. right. exists response. tauto.
      * split; [|reflexivity]. intros _. right. exists response. tauto.
    + split; [|reflexivity]. intros _. left. now exists message.
  - intros response header -> -> ->. reflexivity.
Qed.

(** X14. With a readable manifest file and a readable allowlist, the
    catalog is found fresh exactly when the manifest exists, spec.json
    exists, the hash of allowlist.ts is the recorded one, and each upstream
    length that could be fetched equals the recorded one.  A length that
    could not be fetched does not count against freshness. *)
Theorem checkStaleness_fresh_iff (manifest : option BuildManifest) (hash : string) :
  manifestFile = Returned manifest ->
  allowlistDigest = Returned hash ->
  snd checkStaleness = Returned None <->
  exists m,
    manifest = Some m /\ specFilePresent = true /\ hash = allowlistHash m /\
    (forall n, upstreamLength SPEC_URLS_v1 = Some n ->
               strictEq n (v1ContentLength m) = true) /\
    (forall n, upstreamLength SPEC_URLS_v2 = Some n ->
               strictEq n (v2ContentLength m) = true).
Proof.
  intros Hm Hh. rewrite checkStaleness_unfold, Hm, Hh.
  destruct manifest as [m|].
  2: { split; [discriminate | intros (m & Hx & _); discriminate]. }
  destruct specFilePresent; simpl.
  2: { split; [discriminate | intros (m' & _ & Hx & _); discriminate]. }
  destruct (hash =? allowlistHash m) eqn:Heq; simpl.
  2: { apply String.eqb_neq in Heq. split; [discriminate|].
       intros (m' & Hx & _ & Hy & _). injection Hx as <-. contradiction. }
  apply String.eqb_eq in Heq.
  unfold changed.
  destruct (upstreamLength SPEC_URLS_v1) as [n1|];
    destruct (upstreamLength SPEC_URLS_v2) as [n2|];
    try destruct (strictEq n1 (v1ContentLength m)) eqn:H1;
    try destruct (strictEq n2 (v2ContentLength m)) eqn:H2; simpl;
    (split;
     [ try discriminate; intros _; exists m; repeat split; try assumption;
       intros n Hn; try discriminate; injection Hn as <-; assumption
     | try reflexivity;
       intros (m' & Hx & _ & _ & Hv1 & Hv2); injection Hx as <-;
       try (specialize (Hv1 _ eq_refl); congruence);
       try (specialize (Hv2 _ eq_refl); congruence) ]).
Qed.

(** X15. When neither upstream length can be fetched and the local checks
    pass, the catalog counts as fresh: the check makes its two HEAD
    requests, warns that upstream could not be reached, and reports no
    reason to rebuild. *)
Theorem unreachable_upstream_is_not_stale (m : BuildManifest) :
  manifestFile = Returned (Some m) ->
  specFilePresent = true ->
  allowlistDigest = Returned (allowlistHash m) ->
  upstreamLength SPEC_URLS_v1 = None ->
  upstreamLength SPEC_URLS_v2 = None ->
  checkStaleness =
  ([ ReadManifest; SpecExists; HashAllowlist;
     HeadFetch SPEC_URLS_v1 5000%N; HeadFetch SPEC_URLS_v2 5000%N;
     Warn "Could not reach upstream specs to check for updates" ],
   Returned None).
Proof.
  intros Hm Hs Hh H1 H2.
  rewrite checkStaleness_unfold, Hm, Hs, Hh, H1, H2, String.eqb_refl.
  reflexivity.
Qed.

(** X16. The network is consulted last: a HEAD request is made only after
    the manifest was found, spec.json exists and the hash of allowlist.ts
    equals the recorded one; and the hash is computed only when the
    manifest and spec.json are there. *)
Theorem checkStaleness_local_checks_first :
  (forall url timeout,
     In (HeadFetch url timeout) (fst checkStaleness) ->
     exists m, manifestFile = Returned (Some m) /\ specFilePresent = true /\
               allowlistDigest = Returned (allowlistHash m)) /\
  (In HashAllowlist (fst checkStaleness) ->
   exists m, manifestFile = Returned (Some m) /\ specFilePresent = true).
Proof.
  rewrite checkStaleness_unfold.
  destruct manifestFile as [[m|]|message].
  2,3: split; [intros url timeout|]; simpl;
       intros Hin; repeat (destruct Hin as [Hin | Hin]; try discriminate); contradiction.
  destruct specFilePresent; simpl.
  2: split; [intros url timeout|]; simpl;
     intros Hin; repeat (destruct Hin as [Hin | Hin]; try discriminate); contradiction.
  split; [|intros _; now exists m].
  intros url timeout.
  destruct allowlistDigest as [hash|message].
  2: simpl; intros Hin;
     repeat (destruct Hin as [Hin | Hin]; try discriminate); contradiction.
  destruct (hash =? allowlistHash m) eqn:Heq; simpl.
  - apply String.eqb_eq in Heq. subst hash. intros _. now exists m.
  - intros Hin. repeat (destruct Hin as [Hin | Hin]; try discriminate); contradiction.
Qed.

(** X17. [ensureSpec] rebuilds exactly when the check names a reason: it
    then logs the reason and runs the build, and ends as the build ends;
    when the catalog is fresh it does nothing beyond the check. *)
Theorem ensureSpec_rebuilds_iff_stale :
  (In BuildSpec (fst ensureSpec) <->
   exists reason, snd checkStaleness = Returned (Some reason)) /\
  (forall reason,
     snd checkStaleness = Returned (Some reason) ->
     ensureSpec =
       ((fst checkStaleness ++ [Log ("Rebuilding spec: " ++ reason); BuildSpec])%list,
        rebuild)) /\
  (snd checkStaleness = Returned None -> ensureSpec = (fst checkStaleness, Returned tt)).
Proof.
  assert (Hno : ~ In BuildSpec (fst checkStaleness)).
  { rewrite checkStaleness_unfold.
    destruct manifestFile as [[m|]|message];
      try destruct specFilePresent; simpl;
      try destruct allowlistDigest as [hash|message];
      try destruct (hash =? allowlistHash m); simpl;
      try destruct (changed _ (v1ContentLength m));
      try destruct (changed _ (v2ContentLength m));
      try destruct (upstreamLength SPEC_URLS_v1);
      try destruct (upstreamLength SPEC_URLS_v2); simpl;
      intros Hin; repeat (destruct Hin as [Hin | Hin]; try discriminate);
      contradiction. }
  unfold ensureSpec, bind, emit, lift, ret.
  destruct checkStaleness as [log [[reason|]|message]]; simpl in *.
  - destruct rebuild; simpl.
    + split; [|split; [|discriminate]].
      * split; [eauto|]. intros _. apply in_or_app. right. simpl. tauto.
      * intros reason' Hr. injection Hr as <-. reflexivity.
    + split; [|split; [|discriminate]].
      * split; [eauto|]. intros _. apply in_or_app. right. simpl. tauto.
      * intros reason' Hr. injection Hr as <-. reflexivity.
  - rewrite app_nil_r. split; [|split; [discriminate | reflexivity]].
    split; [contradiction | intros [reason Hr]; discriminate].
  - split; [|split; discriminate].
    split; [contradiction | intros [reason Hr]; discriminate].
Qed.

End WithWorld.

End EnsureSpecFacts.

(** ** The catalog reducer *)

Module BuildSpecFacts.
Import JS Allowlist Design JSFacts MatcherFacts PolicyFacts Consistency StringFacts
  PolicyExtras BuildSpec CatalogTerms.

Example extractProduct_samples :
  extractProduct "/api/v1/monitor" = Some "monitor" /\
  extractProduct "/api/v2/logs/events/search" = Some "logs" /\
  extractProduct "/api/v3/monitor" = None /\
  extractProduct "/api/v1/" = None /\
  extractProduct "/proxy/api/v2/logs" = Some "logs".
Proof. repeat split; reflexivity. Qed.

Lemma takeSegment_sepFree (s : string) : sepFree "/" (takeSegment s) = true.
Proof.
  induction s as [|c s IH]; [reflexivity|]. simpl.
  destruct (Ascii.eqb c "/") eqn:Hc; [reflexivity|]. simpl.
  now rewrite Hc, IH.
Qed.

Lemma takeSegment_append (seg rest : string) :
  sepFree "/" seg = true ->
  rest = EmptyString \/ (exists r, rest = String "/" r) ->
  takeSegment (seg ++ rest) = seg.
Proof.
  intros Hseg Hrest. induction seg as [|c seg IH]; simpl in *.
  - destruct Hrest as [-> | [r ->]]; reflexivity.
  - apply andb_true_iff in Hseg as [Hc Hseg]. apply negb_true_iff in Hc.
    rewrite Hc. f_equal. now apply IH.
Qed.

(** The text after a segment taken from the front. *)
Lemma takeSegment_split (s : string) :
  exists rest, s = takeSegment s ++ rest /\
               (rest = EmptyString \/ exists r, rest = String "/" r).
Proof.
  induction s as [|c s (rest & Hs & Hrest)]; simpl.
  - exists EmptyString. split; [reflexivity | now left].
  - destruct (Ascii.eqb c "/") eqn:Hc.
    + apply Ascii.eqb_eq in Hc. subst c. exists (String "/" s).
      split; [reflexivity | right; now exists s].
    + exists rest. split; [simpl; now rewrite <- Hs | assumption].
Qed.

Lemma productAt_some (s product : string) :
  productAt s = Some product ->
  product <> EmptyString /\ sepFree "/" product = true /\
  exists version rest,
    (version = "1" \/ version = "2") /\
    s = "/api/v" ++ version ++ "/" ++ product ++ rest /\
    (rest = EmptyString \/ exists r, rest = String "/" r).
Proof.
  unfold productAt.
  destruct (String.prefix "/api/v" s) eqn:Hpre; [|discriminate].
  do 6 (destruct s as [|? s]; [discriminate|]).
  simpl in Hpre.
  repeat match type of Hpre with
         | (if ?d then _ else _) = true =>
             destruct d as [<-|]; [|discriminate]
         end.
  simpl skip.
  destruct s as [|digit [|slash rest]]; try discriminate.
  destruct (Ascii.eqb digit "1" || Ascii.eqb digit "2") eqn:Hd; [|discriminate].
  destruct (Ascii.eqb slash "/") eqn:Hs; [|discriminate]. simpl.
  apply Ascii.eqb_eq in Hs. subst slash.
  pose proof (takeSegment_sepFree rest) as Hfree.
  destruct (takeSegment_split rest) as (tail & Hrest & Htail).
  destruct (takeSegment rest) as [|c seg] eqn:Hseg; [discriminate|].
  intros Hp. injection Hp as <-.
  split; [discriminate|]. split; [assumption|].
  apply orb_true_iff in Hd.
  exists (String digit EmptyString), tail. split.
  - destruct Hd as [Hd | Hd]; apply Ascii.eqb_eq in Hd; subst digit; tauto.
  - split; [|assumption]. simpl. now rewrite Hrest.
Qed.

Lemma extractProduct_some (path product : string) :
  extractProduct path = Some product ->
  product <> EmptyString /\ sepFree "/" product = true /\
  exists before version rest,
    (version = "1" \/ version = "2") /\
    path = before ++ "/api/v" ++ version ++ "/" ++ product ++ rest /\
    (rest = EmptyString \/ exists r, rest = String "/" r).
Proof.
  induction path as [|c path IH]; simpl.
  - discriminate.
  - destruct (productAt (String c path)) as [p|] eqn:Hat.
    + intros Hp. injection Hp as ->.
      destruct (productAt_some _ _ Hat) as (Hne & Hfree & version & rest & Hv & Hs & Hr).
      split; [assumption|]. split; [assumption|].
      exists EmptyString, version, rest. now repeat split.
    + intros Hp.
      destruct (IH Hp) as (Hne & Hfree & before & version & rest & Hv & Hs & Hr).
      split; [assumption|]. split; [assumption|].
      exists (String c before), version, rest. repeat split; try assumption.
      simpl. now rewrite Hs.
Qed.

Lemma extractProduct_versioned (version segment rest : string) :
  version = "1" \/ version = "2" ->
  validValue segment = true ->
  rest = EmptyString \/ (exists r, rest = String "/" r) ->
  extractProduct ("/api/v" ++ version ++ "/" ++ segment ++ rest) = Some segment.
Proof.
  intros Hv Hseg Hrest.
  unfold validValue in Hseg. apply andb_true_iff in Hseg as [Hne Hfree].
  assert (Hat : productAt ("/api/v" ++ version ++ "/" ++ segment ++ rest) = Some segment).
  { unfold productAt.
    destruct Hv as [-> | ->]; simpl;
      rewrite (takeSegment_append segment rest Hfree Hrest);
      destruct segment; [discriminate | reflexivity | discriminate | reflexivity]. }
  destruct Hv as [-> | ->]; simpl in *; now rewrite Hat.
Qed.

(** X18. [extractProduct] yields the segment that follows the first
    "/api/v1/" or "/api/v2/" of the path: when it yields a product, the
    product is not empty, holds no "/", and stands in the path right after
    such a prefix and before a "/" or the end; and on a path whose segments
    begin with "", "api", "v1" or "v2", and a non-empty fourth one, the
    product is that fourth segment. *)
Theorem extractProduct_segment :
  (forall path product,
     extractProduct path = Some product ->
     product <> EmptyString /\ sepFree "/" product = true /\
     exists before version rest,
       (version = "1" \/ version = "2") /\
       path = before ++ "/api/v" ++ version ++ "/" ++ product ++ rest /\
       (rest = EmptyString \/ exists r, rest = String "/" r)) /\
  (forall path version segment more,
     split "/" path = EmptyString :: "api" :: version :: segment :: more ->
     version = "v1" \/ version = "v2" ->
     segment <> EmptyString ->
     extractProduct path = Some segment).
Proof.
  split; [exact extractProduct_some|].
  intros path version segment more Hsplit Hv Hne.
  pose proof (split_segments_sepFree "/" path) as Hfree.
  rewrite Hsplit in Hfree. rewrite forallb_forall in Hfree.
  assert (Hseg : validValue segment = true).
  { unfold validValue. apply andb_true_iff. split.
    - destruct segment; [congruence | reflexivity].
    - apply Hfree. simpl. tauto. }
  rewrite <- (join_split "/" path), Hsplit.
  destruct more as [|next more'].
  - destruct Hv as [-> | ->].
    + pose proof (extractProduct_versioned "1" segment EmptyString
                    (or_introl eq_refl) Hseg (or_introl eq_refl)) as Hx.
      rewrite append_nil_r in Hx. exact Hx.
    + pose proof (extractProduct_versioned "2" segment EmptyString
                    (or_intror eq_refl) Hseg (or_introl eq_refl)) as Hx.
      rewrite append_nil_r in Hx. exact Hx.
  - destruct Hv as [-> | ->].
    + apply (extractProduct_versioned "1" segment
               (String "/" (join "/" (next :: more')))); eauto.
    + apply (extractProduct_versioned "2" segment
               (String "/" (join "/" (next :: more')))); eauto.
Qed.

(** *** Keyed lists *)

Lemma get_set_same {V : Type} (key : string) (value : V) (entries : list (string * V)) :
  get key (set key value entries) = Some value.
Proof.
  induction entries as [|[k v] rest IH]; simpl.
  - now rewrite String.eqb_refl.
  - destruct (k =? key) eqn:Hk; simpl.
    + now rewrite String.eqb_refl.
    + now rewrite Hk.
Qed.

Lemma get_set_other {V : Type} (key key' : string) (value : V)
    (entries : list (string * V)) :
  key <> key' -> get key' (set key value entries) = get key' entries.
Proof.
  intros Hne. induction entries as [|[k v] rest IH]; simpl.
  - apply String.eqb_neq in Hne. now rewrite Hne.
  - destruct (k =? key) eqn:Hk; simpl.
    + apply String.eqb_eq in Hk. subst k.
      apply String.eqb_neq in Hne. now rewrite Hne.
    + destruct (k =? key'); [reflexivity | exact IH].
Qed.

Lemma set_In {V : Type} (key : string) (value : V) (entries : list (string * V))
    (kv : string * V) :
  In kv (set key value entries) -> kv = (key, value) \/ In kv entries.
Proof.
  induction entries as [|[k v] rest IH]; simpl.
  - intros [<- | []]. now left.
  - destruct (k =? key); simpl.
    + intros [<- | Hin]; [now left | right; now right].
    + intros [<- | Hin]; [right; now left|].
      destruct (IH Hin) as [-> | Hin']; [now left | right; now right].
Qed.

Lemma get_In {V : Type} (key : string) (value : V) (entries : list (string * V)) :
  get key entries = Some value -> In (key, value) entries.
Proof.
  induction entries as [|[k v] rest IH]; simpl; [discriminate|].
  destruct (k =? key) eqn:Hk.
  - apply String.eqb_eq in Hk. intros Hv. injection Hv as <-. left. now subst.
  - intros Hv. right. now apply IH.
Qed.

Lemma get_None_not_In {V : Type} (key : string) (entries : list (string * V)) :
  get key entries = None <-> ~ In key (map fst entries).
Proof.
  induction entries as [|[k v] rest IH]; simpl; [tauto|].
  destruct (k =? key) eqn:Hk.
  - apply String.eqb_eq in Hk. split; [discriminate | tauto].
  - apply String.eqb_neq in Hk. rewrite IH. tauto.
Qed.

Lemma set_keys_NoDup {V : Type} (key : string) (value : V) (entries : list (string * V)) :
  NoDup (map fst entries) -> NoDup (map fst (set key value entries)).
Proof.
  induction entries as [|[k v] rest IH]; simpl; intros Hnd.
  - constructor; [tauto | constructor].
  - inversion Hnd as [|? ? Hnotin Hnd']; subst.
    destruct (k =? key) eqn:Hk; simpl.
    + apply String.eqb_eq in Hk. subst k. now constructor.
    + constructor; [|now apply IH].
      intros Hin. apply in_map_iff in Hin as ([k' v'] & Hfst & Hin).
      simpl in Hfst. subst k'. apply set_In in Hin as [Heq | Hin].
      * injection Heq as -> _. apply String.eqb_neq in Hk. congruence.
      * apply Hnotin. apply in_map_iff. now exists (k, v').
Qed.

Lemma set_append {V : Type} (key : string) (value : V) (entries : list (string * V)) :
  get key entries = None -> set key value entries = (entries ++ [(key, value)])%list.
Proof.
  induction entries as [|[k v] rest IH]; simpl; [reflexivity|].
  destruct (k =? key); [discriminate|]. intros Hg. now rewrite IH.
Qed.

Lemma HTTP_METHODS_NoDup : NoDup HTTP_METHODS.
Proof.
  unfold HTTP_METHODS.
  repeat (constructor; [simpl; intros Hin;
                        repeat (destruct Hin as [Hin | Hin]; try discriminate);
                        contradiction|]).
  constructor.
Qed.

(** *** The two loops of [processSpec] in closed form *)

Section WithParameters.
Context {U : UpperCasing}.
Context {JSValue : Type}.
Variable resolveRefs : JSValue -> JSValue.
Variable toLowerCase : string -> string.

Lemma methods_loop (path : string)
    (pathItem : list (string * OperationObject (JSValue := JSValue)))
    (l : list string) :
  forall (methods : list (string * KeptOperation (JSValue := JSValue)))
         (hasMethod : bool) (acc : Processed (JSValue := JSValue)),
  NoDup l ->
  (forall m, In m l -> get m methods = None) ->
  fold_left (stepMethod resolveRefs toLowerCase path pathItem) l
    (methods, hasMethod, acc) =
  ((methods ++ flat_map (keptOne resolveRefs toLowerCase path pathItem) l)%list,
   hasMethod || negb (Nat.eqb (List.length (flat_map (keptOne resolveRefs toLowerCase path pathItem) l)) 0),
   mkProcessed (paths acc)
     (fold_left (fun counts _ => countProduct (extractProduct path) counts)
        (flat_map (keptOne resolveRefs toLowerCase path pathItem) l) (products acc))
     (endpointCount acc + List.length (flat_map (keptOne resolveRefs toLowerCase path pathItem) l))
     (removedCount acc + List.length (filter (removedOne path pathItem) l))).
Proof.
  induction l as [|a l IH]; intros methods hasMethod acc Hnd Hfresh.
  - simpl. rewrite app_nil_r, orb_false_r, !Nat.add_0_r. now destruct acc.
  - inversion Hnd as [|? ? Hnotin Hnd']; subst.
    change (fold_left (stepMethod resolveRefs toLowerCase path pathItem) (a :: l)
              (methods, hasMethod, acc))
      with (fold_left (stepMethod resolveRefs toLowerCase path pathItem) l
              (stepMethod resolveRefs toLowerCase path pathItem
                 (methods, hasMethod, acc) a)).
    cbn [flat_map filter].
    destruct (get a pathItem) as [op|] eqn:Hop;
      [destruct (isAllowedSpecEndpoint a path) eqn:Hallowed|].
    + assert (Hk : keptOne resolveRefs toLowerCase path pathItem a =
                   [(a, keepOperation resolveRefs toLowerCase path op)])
        by (unfold keptOne; now rewrite Hop, Hallowed).
      assert (Hr : removedOne path pathItem a = false)
        by (unfold removedOne; now rewrite Hop, Hallowed).
      assert (Hs : stepMethod resolveRefs toLowerCase path pathItem
                     (methods, hasMethod, acc) a =
                   (set a (keepOperation resolveRefs toLowerCase path op) methods, true,
                    mkProcessed (paths acc)
                      (countProduct (extractProduct path) (products acc))
                      (endpointCount acc + 1) (removedCount acc)))
        by (unfold stepMethod; now rewrite Hop, Hallowed).
      rewrite Hk, Hr, Hs, IH; [|assumption|].
      * rewrite (set_append a _ methods) by (apply Hfresh; now left).
        cbn [paths products endpointCount removedCount].
        rewrite <- app_assoc. cbn [app List.length fold_left].
        rewrite orb_true_r. f_equal. f_equal. lia.
      * intros m Hm. rewrite get_set_other; [apply Hfresh; now right|].
        intros ->. contradiction.
    + assert (Hk : keptOne resolveRefs toLowerCase path pathItem a = [])
        by (unfold keptOne; now rewrite Hop, Hallowed).
      assert (Hr : removedOne path pathItem a = true)
        by (unfold removedOne; now rewrite Hop, Hallowed).
      assert (Hs : stepMethod resolveRefs toLowerCase path pathItem
                     (methods, hasMethod, acc) a =
                   (methods, hasMethod,
                    mkProcessed (paths acc) (products acc) (endpointCount acc)
                      (removedCount acc + 1)))
        by (unfold stepMethod; now rewrite Hop, Hallowed).
      rewrite Hk, Hr, Hs, IH; [|assumption | intros m Hm; apply Hfresh; now right].
      cbn [paths products endpointCount removedCount app List.length].
      f_equal. f_equal. lia.
    + assert (Hk : keptOne resolveRefs toLowerCase path pathItem a = [])
        by (unfold keptOne; now rewrite Hop).
      assert (Hr : removedOne path pathItem a = false)
        by (unfold removedOne; now rewrite Hop).
      assert (Hs : stepMethod resolveRefs toLowerCase path pathItem
                     (methods, hasMethod, acc) a = (methods, hasMethod, acc))
        by (unfold stepMethod; now rewrite Hop).
      rewrite Hk, Hr, Hs, IH; [|assumption | intros m Hm; apply Hfresh; now right].
      reflexivity.
Qed.

Lemma stepPath_some (acc : Processed (JSValue := JSValue)) (path : string)
    (pathItem : list (string * OperationObject (JSValue := JSValue))) :
  stepPath resolveRefs toLowerCase acc (path, Some pathItem) =
  mkProcessed
    (if Nat.eqb (List.length (keptMethods resolveRefs toLowerCase path pathItem)) 0
     then paths acc
     else set path (keptMethods resolveRefs toLowerCase path pathItem) (paths acc))
    (fold_left (fun counts _ => countProduct (extractProduct path) counts)
       (keptMethods resolveRefs toLowerCase path pathItem) (products acc))
    (endpointCount acc + List.length (keptMethods resolveRefs toLowerCase path pathItem))
    (removedCount acc + List.length (filter (removedOne path pathItem) HTTP_METHODS)).
Proof.
  unfold stepPath. cbn [fst snd].
  rewrite methods_loop; [|exact HTTP_METHODS_NoDup | reflexivity].
  fold (keptMethods resolveRefs toLowerCase path pathItem).
  cbn [app orb paths products endpointCount removedCount].
  destruct (Nat.eqb (List.length (keptMethods resolveRefs toLowerCase path pathItem)) 0);
    reflexivity.
Qed.

Lemma stepPath_none (acc : Processed (JSValue := JSValue)) (path : string) :
  stepPath resolveRefs toLowerCase acc (path, None) = acc.
Proof. reflexivity. Qed.

Lemma kept_length (path : string)
    (pathItem : list (string * OperationObject (JSValue := JSValue))) (l : list string) :
  List.length (flat_map (keptOne resolveRefs toLowerCase path pathItem) l) =
  List.length
    (filter allowedPair
       (map (pair path)
          (filter (fun m => match get m pathItem with Some _ => true | None => false end) l))).
Proof.
  induction l as [|a l IH]; [reflexivity|].
  cbn [flat_map filter]. rewrite length_app, IH. unfold keptOne.
  destruct (get a pathItem); [|reflexivity].
  cbn [map filter]. unfold allowedPair at 2. cbn [fst snd].
  destruct (isAllowedSpecEndpoint a path); reflexivity.
Qed.

Lemma removed_length (path : string)
    (pathItem : list (string * OperationObject (JSValue := JSValue))) (l : list string) :
  List.length (filter (removedOne path pathItem) l) =
  List.length
    (filter (fun pm => negb (allowedPair pm))
       (map (pair path)
          (filter (fun m => match get m pathItem with Some _ => true | None => false end) l))).
Proof.
  induction l as [|a l IH]; [reflexivity|].
  cbn [filter]. unfold removedOne at 1.
  destruct (get a pathItem); [|exact IH].
  cbn [map filter]. unfold allowedPair at 1. cbn [fst snd].
  destruct (isAllowedSpecEndpoint a path); cbn [negb List.length]; now rewrite IH.
Qed.

Lemma processSpec_counts_from (specPaths : list (string * option (list (string * OperationObject (JSValue := JSValue))))) :
  forall acc : Processed (JSValue := JSValue),
  endpointCount (fold_left (stepPath resolveRefs toLowerCase) specPaths acc) =
    endpointCount acc + List.length (filter allowedPair (declared specPaths)) /\
  removedCount (fold_left (stepPath resolveRefs toLowerCase) specPaths acc) =
    removedCount acc +
    List.length (filter (fun pm => negb (allowedPair pm)) (declared specPaths)).
Proof.
  induction specPaths as [|[path [pathItem|]] rest IH]; intros acc.
  - simpl. lia.
  - cbn [fold_left]. destruct (IH (stepPath resolveRefs toLowerCase acc (path, Some pathItem)))
      as [He Hr].
    rewrite He, Hr, stepPath_some. cbn [endpointCount removedCount].
    unfold declared. cbn [flat_map fst snd].
    rewrite !filter_app, !length_app.
    unfold keptMethods, declaredMethods.
    rewrite kept_length, removed_length. lia.
  - cbn [fold_left]. rewrite stepPath_none. apply IH.
Qed.

Lemma countOf_countProduct (path product method : string) (counts : list (string * nat)) :
  countOf product (countProduct (extractProduct path) counts) =
  countOf product counts + (if hasProduct product (path, method) then 1 else 0).
Proof.
  unfold countProduct, hasProduct, countOf. cbn [fst].
  destruct (extractProduct path) as [p|] eqn:Hp; [|lia].
  destruct (extractProduct_some _ _ Hp) as (Hne & _).
  unfold truthyString. apply String.eqb_neq in Hne. rewrite Hne. cbn [negb].
  destruct (p =? product) eqn:Heq.
  - apply String.eqb_eq in Heq. subst p. now rewrite get_set_same.
  - apply String.eqb_neq in Heq. rewrite get_set_other by assumption. lia.
Qed.

Lemma countOf_counted {A : Type} (path product : string) (kept : list A) :
  forall counts,
  countOf product
    (fold_left (fun c _ => countProduct (extractProduct path) c) kept counts) =
  countOf product counts +
  (if hasProduct product (path, EmptyString) then List.length kept else 0).
Proof.
  induction kept as [|k kept IH]; intros counts; cbn [fold_left List.length].
  - destruct (hasProduct _ _); lia.
  - rewrite IH, (countOf_countProduct path product EmptyString).
    destruct (hasProduct product (path, EmptyString)); lia.
Qed.

Lemma product_pairs_length (path product : string) (l : list string) :
  List.length (filter (fun pm => allowedPair pm && hasProduct product pm)
                 (map (pair path) l)) =
  if hasProduct product (path, EmptyString)
  then List.length (filter allowedPair (map (pair path) l)) else 0.
Proof.
  induction l as [|a l IH]; cbn [map filter].
  - now destruct (hasProduct _ _).
  - change (hasProduct product (path, a)) with (hasProduct product (path, EmptyString)).
    destruct (allowedPair (path, a)); cbn [andb];
      destruct (hasProduct product (path, EmptyString)); cbn [List.length];
      now rewrite IH.
Qed.

Lemma processSpec_products_from (product : string)
    (specPaths : list (string * option (list (string * OperationObject (JSValue := JSValue))))) :
  forall acc : Processed (JSValue := JSValue),
  countOf product (products (fold_left (stepPath resolveRefs toLowerCase) specPaths acc)) =
  countOf product (products acc) +
  List.length (filter (fun pm => allowedPair pm && hasProduct product pm)
                 (declared specPaths)).
Proof.
  induction specPaths as [|[path [pathItem|]] rest IH]; intros acc.
  - simpl. lia.
  - cbn [fold_left]. rewrite IH, stepPath_some. cbn [products].
    rewrite countOf_counted.
    unfold declared. cbn [flat_map fst snd].
    rewrite filter_app, length_app, product_pairs_length.
    unfold keptMethods, declaredMethods. rewrite kept_length.
    destruct (hasProduct product (path, EmptyString)); lia.
  - cbn [fold_left]. rewrite stepPath_none. apply IH.
Qed.

(** *** What is in [paths] *)

Lemma keptMethods_In (path : string)
    (pathItem : list (string * OperationObject (JSValue := JSValue)))
    (l : list string) (m : string) (k : KeptOperation (JSValue := JSValue)) :
  In (m, k) (flat_map (keptOne resolveRefs toLowerCase path pathItem) l) <->
  In m l /\
  exists op, get m pathItem = Some op /\ isAllowedSpecEndpoint m path = true /\
             k = keepOperation resolveRefs toLowerCase path op.
Proof.
  rewrite in_flat_map. unfold keptOne. split.
  - intros (m' & Hin & Hk).
    destruct (get m' pathItem) as [op|] eqn:Hop; [|contradiction].
    destruct (isAllowedSpecEndpoint m' path) eqn:Ha; [|contradiction].
    destruct Hk as [Hk | []]. injection Hk as -> <-.
    split; [assumption|]. now exists op.
  - intros (Hin & op & Hop & Ha & ->). exists m. split; [assumption|].
    rewrite Hop, Ha. now left.
Qed.

Lemma keptMethods_keys (path : string)
    (pathItem : list (string * OperationObject (JSValue := JSValue)))
    (l : list string) :
  NoDup l ->
  NoDup (map fst (flat_map (keptOne resolveRefs toLowerCase path pathItem) l)).
Proof.
  induction l as [|a l IH]; intros Hnd; [constructor|].
  inversion Hnd as [|? ? Hnotin Hnd']; subst.
  cbn [flat_map]. rewrite map_app. unfold keptOne at 1.
  destruct (get a pathItem) as [op|]; [|now apply IH].
  destruct (isAllowedSpecEndpoint a path); [|now apply IH].
  cbn [map app fst]. constructor; [|now apply IH].
  intros Hin. apply in_map_iff in Hin as ([m k] & Hm & Hin).
  cbn [fst] in Hm. subst m. apply keptMethods_In in Hin as [Hin _]. contradiction.
Qed.

Lemma In_get {V : Type} (key : string) (value : V) (entries : list (string * V)) :
  NoDup (map fst entries) -> In (key, value) entries -> get key entries = Some value.
Proof.
  induction entries as [|[k v] rest IH]; intros Hnd Hin; [contradiction|].
  inversion Hnd as [|? ? Hnotin Hnd']; subst. simpl.
  destruct Hin as [Heq | Hin].
  - injection Heq as -> ->. now rewrite String.eqb_refl.
  - destruct (k =? key) eqn:Hk; [|now apply IH].
    apply String.eqb_eq in Hk. subst k. exfalso. apply Hnotin.
    apply in_map_iff. now exists (key, value).
Qed.

Lemma processSpec_paths_from
    (specPaths : list (string * option (list (string * OperationObject (JSValue := JSValue))))) :
  forall (acc : Processed (JSValue := JSValue)) path methods,
  In (path, methods) (paths (fold_left (stepPath resolveRefs toLowerCase) specPaths acc)) ->
  In (path, methods) (paths acc) \/
  exists pathItem,
    In (path, Some pathItem) specPaths /\
    methods = keptMethods resolveRefs toLowerCase path pathItem /\
    methods <> [].
Proof.
  induction specPaths as [|[p [pathItem|]] rest IH]; intros acc path methods Hin.
  - now left.
  - cbn [fold_left] in Hin. apply IH in Hin as [Hin | (item & Hin & Hm & Hne)].
    + rewrite stepPath_some in Hin. cbn [paths] in Hin.
      destruct (Nat.eqb (List.length (keptMethods resolveRefs toLowerCase p pathItem)) 0)
        eqn:Hlen; [now left|].
      apply set_In in Hin as [Heq | Hin]; [|now left].
      injection Heq as -> ->. right. exists pathItem.
      split; [now left|]. split; [reflexivity|].
      intros Hnil. rewrite Hnil in Hlen. discriminate.
    + right. exists item. split; [now right | tauto].
  - cbn [fold_left] in Hin. rewrite stepPath_none in Hin.
    apply IH in Hin as [Hin | (item & Hin & Hm)]; [now left|].
    right. exists item. split; [now right | assumption].
Qed.

Lemma processSpec_keys_from
    (specPaths : list (string * option (list (string * OperationObject (JSValue := JSValue))))) :
  forall acc : Processed (JSValue := JSValue),
  NoDup (map fst (paths acc)) ->
  NoDup (map fst (paths (fold_left (stepPath resolveRefs toLowerCase) specPaths acc))).
Proof.
  induction specPaths as [|[p [pathItem|]] rest IH]; intros acc Hnd.
  - assumption.
  - cbn [fold_left]. apply IH. rewrite stepPath_some. cbn [paths].
    destruct (Nat.eqb _ 0); [assumption | now apply set_keys_NoDup].
  - cbn [fold_left]. rewrite stepPath_none. now apply IH.
Qed.

Lemma processSpec_get_from
    (specPaths : list (string * option (list (string * OperationObject (JSValue := JSValue))))) :
  forall (acc : Processed (JSValue := JSValue)) path,
  NoDup (map fst specPaths) ->
  get path (paths (fold_left (stepPath resolveRefs toLowerCase) specPaths acc)) =
  match get path specPaths with
  | Some (Some pathItem) =>
      if Nat.eqb (List.length (keptMethods resolveRefs toLowerCase path pathItem)) 0
      then get path (paths acc)
      else Some (keptMethods resolveRefs toLowerCase path pathItem)
  | _ => get path (paths acc)
  end.
Proof.
  induction specPaths as [|[p item] rest IH]; intros acc path Hnd; [reflexivity|].
  inversion Hnd as [|? ? Hnotin Hnd']; subst. cbn [fold_left].
  rewrite IH by assumption. cbn [get].
  destruct (p =? path) eqn:Hp.
  - apply String.eqb_eq in Hp. subst p.
    apply get_None_not_In in Hnotin. rewrite Hnotin.
    destruct item as [pathItem|]; [|reflexivity].
    rewrite stepPath_some. cbn [paths].
    destruct (Nat.eqb _ 0); [reflexivity | apply get_set_same].
  - apply String.eqb_neq in Hp.
    assert (Hsame : get path (paths (stepPath resolveRefs toLowerCase acc (p, item))) =
                    get path (paths acc)).
    { destruct item as [pathItem|]; [|reflexivity].
      rewrite stepPath_some. cbn [paths].
      destruct (Nat.eqb _ 0); [reflexivity | now apply get_set_other]. }
    rewrite Hsame. reflexivity.
Qed.

Lemma patch_never_allowed (path : string) : isAllowedSpecEndpoint "patch" path = false.
Proof.
  unfold isAllowedSpecEndpoint, isAllowedSpecEndpoint_on.
  rewrite (toUpperCase_basic_latin "patch" eq_refl). reflexivity.
Qed.

Lemma filter_split_length {A : Type} (f : A -> bool) (l : list A) :
  List.length (filter f l) + List.length (filter (fun x => negb (f x)) l) = List.length l.
Proof.
  induction l as [|a l IH]; [reflexivity|]. simpl.
  destruct (f a); simpl; lia.
Qed.

(** X19. [processSpec] accounts for every declared operation once: of the
    pairs of path and method (among get, post, put, patch, delete) for
    which the spec has an operation, [endpointCount] is the number that the
    catalog filter allows, [removedCount] the number it does not, and the
    two add up to the number of all of them. *)
Theorem processSpec_counts
    (specPaths : list (string * option (list (string * OperationObject (JSValue := JSValue))))) :
  endpointCount (processSpec resolveRefs toLowerCase specPaths) =
    List.length (filter allowedPair (declared specPaths)) /\
  removedCount (processSpec resolveRefs toLowerCase specPaths) =
    List.length (filter (fun pm => negb (allowedPair pm)) (declared specPaths)) /\
  endpointCount (processSpec resolveRefs toLowerCase specPaths) +
  removedCount (processSpec resolveRefs toLowerCase specPaths) =
    List.length (declared specPaths).
Proof.
  unfold processSpec.
  destruct (processSpec_counts_from specPaths (mkProcessed [] [] 0 0)) as [He Hr].
  cbn [endpointCount removedCount] in He, Hr.
  rewrite He, Hr. repeat split; try reflexivity.
  apply filter_split_length.
Qed.

(** X20. On a spec whose paths are distinct keys, the catalog holds an
    operation under a path and a method exactly when the method is one of
    the five, the spec has an operation there, and the catalog filter
    allows the method on the path; what is held is that operation as
    [keepOperation] writes it.  Nothing allowed is lost and nothing else
    gets in. *)
Theorem processSpec_keeps_exactly_allowed
    (specPaths : list (string * option (list (string * OperationObject (JSValue := JSValue)))))
    (path method : string) (kept : KeptOperation (JSValue := JSValue)) :
  NoDup (map fst specPaths) ->
  (exists methods,
     get path (paths (processSpec resolveRefs toLowerCase specPaths)) = Some methods /\
     get method methods = Some kept) <->
  (exists pathItem op,
     get path specPaths = Some (Some pathItem) /\
     In method HTTP_METHODS /\
     get method pathItem = Some op /\
     isAllowedSpecEndpoint method path = true /\
     kept = keepOperation resolveRefs toLowerCase path op).
Proof.
  intros Hnd. unfold processSpec.
  rewrite (processSpec_get_from specPaths (mkProcessed [] [] 0 0) path Hnd).
  cbn [paths get]. split.
  - intros (methods & Hget & Hm).
    destruct (get path specPaths) as [[pathItem|]|]; try discriminate.
    destruct (Nat.eqb _ 0); [discriminate|]. injection Hget as <-.
    apply get_In in Hm. apply keptMethods_In in Hm as (Hin & op & Hop & Ha & Hk).
    now exists pathItem, op.
  - intros (pathItem & op & Hpath & Hin & Hop & Ha & Hk). rewrite Hpath.
    assert (Hkept : In (method, kept) (keptMethods resolveRefs toLowerCase path pathItem)).
    { apply keptMethods_In. split; [assumption|]. now exists op. }
    destruct (Nat.eqb (List.length (keptMethods resolveRefs toLowerCase path pathItem)) 0)
      eqn:Hlen.
    + apply Nat.eqb_eq in Hlen.
      destruct (keptMethods resolveRefs toLowerCase path pathItem); [contradiction | discriminate].
    + eexists. split; [reflexivity|].
      apply In_get; [|assumption].
      apply keptMethods_keys, HTTP_METHODS_NoDup.
Qed.

(** X21. Whatever the spec, the catalog is a well-formed object: its paths
    are distinct, no path is left with an empty set of methods, the methods
    under a path are distinct and among get, post, put and delete (a PATCH
    operation is never kept), and the catalog filter allows each of them
    on its path. *)
Theorem processSpec_catalog_well_formed
    (specPaths : list (string * option (list (string * OperationObject (JSValue := JSValue))))) :
  NoDup (map fst (paths (processSpec resolveRefs toLowerCase specPaths))) /\
  (forall path methods,
     In (path, methods) (paths (processSpec resolveRefs toLowerCase specPaths)) ->
     methods <> [] /\ NoDup (map fst methods) /\
     forall method kept,
       In (method, kept) methods ->
       In method ["get"; "post"; "put"; "delete"] /\
       isAllowedSpecEndpoint method path = true).
Proof.
  unfold processSpec. split.
  - apply processSpec_keys_from. constructor.
  - intros path methods Hin.
    apply processSpec_paths_from in Hin as [[] | (pathItem & _ & -> & Hne)].
    split; [assumption|]. split; [apply keptMethods_keys, HTTP_METHODS_NoDup|].
    intros method kept Hk.
    apply keptMethods_In in Hk as (Hm & op & _ & Ha & _).
    split; [|assumption].
    simpl in Hm. destruct Hm as [<- | [<- | [<- | [<- | [<- | []]]]]];
      simpl; try tauto.
    rewrite patch_never_allowed in Ha. discriminate.
Qed.

(** X22. The catalog only advertises what can be called: for every
    operation it holds under a path and a method, the runtime guard allows
    that method on every concrete path generated from the catalog path with
    non-empty values that hold no "/". *)
Theorem processSpec_catalog_is_callable
    (specPaths : list (string * option (list (string * OperationObject (JSValue := JSValue)))))
    (value : string -> string) (path method : string)
    (methods : list (string * KeptOperation (JSValue := JSValue)))
    (kept : KeptOperation (JSValue := JSValue)) :
  (forall name, validValue (value name) = true) ->
  In (path, methods) (paths (processSpec resolveRefs toLowerCase specPaths)) ->
  In (method, kept) methods ->
  isAllowedRuntimeRequest method (substitute value path) = true.
Proof.
  intros Hvalid Hin Hk. unfold processSpec in Hin.
  apply processSpec_paths_from in Hin as [[] | (pathItem & _ & -> & _)].
  apply keptMethods_In in Hk as (_ & op & _ & Ha & _).
  now apply spec_allowed_generated_runtime.
Qed.

(** X23. The count that [processSpec] records for a product is the number
    of kept operations whose path has that product; it never exceeds
    [endpointCount]. *)
Theorem processSpec_product_counts
    (specPaths : list (string * option (list (string * OperationObject (JSValue := JSValue)))))
    (product : string) :
  countOf product (products (processSpec resolveRefs toLowerCase specPaths)) =
    List.length (filter (fun pm => allowedPair pm && hasProduct product pm)
                   (declared specPaths)) /\
  countOf product (products (processSpec resolveRefs toLowerCase specPaths)) <=
    endpointCount (processSpec resolveRefs toLowerCase specPaths).
Proof.
  unfold processSpec.
  rewrite (processSpec_products_from product specPaths (mkProcessed [] [] 0 0)).
  destruct (processSpec_counts_from specPaths (mkProcessed [] [] 0 0)) as [He _].
  rewrite He. cbn [products endpointCount countOf get]. split; [reflexivity|].
  simpl. clear He.
  induction (declared specPaths) as [|pm l IH]; [simpl; lia|].
  simpl. destruct (allowedPair pm); simpl; [|exact IH].
  destruct (hasProduct product pm); simpl; lia.
Qed.

(** X24. A kept operation whose path has a product carries the product as
    a tag, compared without regard to letter case: its tags are those of
    the operation, with the product put in front when no tag already equals
    it, and left as they are otherwise.  Without a product the tags are
    copied. *)
Theorem keepOperation_tags (path : string) (op : OperationObject (JSValue := JSValue)) :
  let original := match tags op with Some ts => ts | None => [] end in
  let written := kept_tags (keepOperation resolveRefs toLowerCase path op) in
  (forall product,
     extractProduct path = Some product ->
     some (fun t => toLowerCase t =? toLowerCase product) written = true /\
     (some (fun t => toLowerCase t =? toLowerCase product) original = true ->
      written = original) /\
     (some (fun t => toLowerCase t =? toLowerCase product) original = false ->
      written = product :: original)) /\
  (extractProduct path = None -> written = original).
Proof.
  cbn zeta. unfold keepOperation. cbn [kept_tags]. unfold taggedWith. split.
  - intros product Hp. rewrite Hp.
    destruct (extractProduct_some _ _ Hp) as (Hne & _).
    unfold truthyString. apply String.eqb_neq in Hne. rewrite Hne. cbn [negb andb].
    destruct (some _ (match tags op with Some ts => ts | None => [] end)) eqn:Hs;
      cbn [negb].
    + repeat split; [assumption | discriminate].
    + split; [|split; [discriminate | reflexivity]].
      unfold some. cbn [existsb]. now rewrite String.eqb_refl.
  - intros Hp. now rewrite Hp.
Qed.

End WithParameters.

(** *** Merging the two results *)

Lemma put_all_get {V : Type} (entries : list (string * V)) :
  forall (merged : list (string * V)) (key : string),
  NoDup (map fst entries) ->
  get key (fold_left (fun m kv => set (fst kv) (snd kv) m) entries merged) =
  match get key entries with
  | Some v => Some v
  | None => get key merged
  end.
Proof.
  induction entries as [|[k v] rest IH]; intros merged key Hnd; [reflexivity|].
  inversion Hnd as [|? ? Hnotin Hnd']; subst.
  cbn [fold_left fst snd get]. rewrite IH by assumption.
  destruct (k =? key) eqn:Hk.
  - apply String.eqb_eq in Hk. subst k.
    apply get_None_not_In in Hnotin. rewrite Hnotin. apply get_set_same.
  - apply String.eqb_neq in Hk.
    destruct (get key rest); [reflexivity | now apply get_set_other].
Qed.

Lemma add_all_countOf (entries : list (string * nat)) :
  forall (merged : list (string * nat)) (key : string),
  NoDup (map fst entries) ->
  countOf key
    (fold_left
       (fun m pc =>
          set (fst pc) (match get (fst pc) m with Some n => n | None => 0 end + snd pc) m)
       entries merged) =
  countOf key merged + countOf key entries.
Proof.
  induction entries as [|[k c] rest IH]; intros merged key Hnd.
  - simpl. unfold countOf at 3. simpl. lia.
  - inversion Hnd as [|? ? Hnotin Hnd']; subst.
    cbn [fold_left fst snd]. rewrite IH by assumption.
    unfold countOf at 1 3 4. cbn [get].
    destruct (k =? key) eqn:Hk.
    + apply String.eqb_eq in Hk. subst k.
      apply get_None_not_In in Hnotin.
      rewrite get_set_same. unfold countOf. rewrite Hnotin. lia.
    + apply String.eqb_neq in Hk. rewrite get_set_other by assumption.
      unfold countOf. lia.
Qed.

(** X25. Merging the v1 and v2 results: the merged count of a product is
    the sum of its two counts (a product missing on one side counts 0
    there), and the merged paths hold, under each path, the v2 entry when
    there is one and the v1 entry otherwise. *)
Theorem merge_results {V : Type} (paths1 paths2 : list (string * V))
    (counts1 counts2 : list (string * nat)) :
  NoDup (map fst paths1) -> NoDup (map fst paths2) ->
  NoDup (map fst counts1) -> NoDup (map fst counts2) ->
  (forall product,
     countOf product (mergeProducts counts1 counts2) =
     countOf product counts1 + countOf product counts2) /\
  (forall path,
     get path (mergePaths paths1 paths2) =
     match get path paths2 with
     | Some item => Some item
     | None => get path paths1
     end).
Proof.
  intros Hp1 Hp2 Hc1 Hc2. split.
  - intros product. unfold mergeProducts.
    rewrite add_all_countOf by assumption. f_equal.
    unfold countOf. rewrite put_all_get by assumption.
    now destruct (get product counts1).
  - intros path. unfold mergePaths.
    rewrite !put_all_get by assumption.
    now destruct (get path paths2), (get path paths1).
Qed.

End BuildSpecFacts.

(** ** The samples, run *)

Module SampleRuns.
Import JS.
Import Executor(Outcome, Returned, Thrown).
Import Samples.

Example processSpec_on_sample :
  map (fun pm => (fst pm, map fst (snd pm))) (BuildSpec.paths processed) =
    [ ("/api/v1/monitor", ["get"]);
      ("/api/v1/notebooks/{notebook_id}", ["get"; "put"; "delete"]);
      ("/api/v2/logs/events/search", ["post"]) ] /\
  BuildSpec.products processed = [("monitor", 1); ("notebooks", 3); ("logs", 1)] /\
  BuildSpec.endpointCount processed = 5 /\
  BuildSpec.removedCount processed = 2.
Proof. repeat split; reflexivity. Qed.

Example checkStaleness_on_samples :
  snd (EnsureSpec.checkStaleness (W := networkDown)) = Returned None /\
  snd (EnsureSpec.checkStaleness (W := upstreamChanged)) =
    Returned (Some "upstream v1 spec changed").
Proof. split; reflexivity. Qed.

End SampleRuns.

(** ** The further theorems at concrete inputs *)

Module ExtraInstances.
Import JS Allowlist Design.
Import Executor(Outcome, Returned, Thrown).
Import Samples.

Lemma other_methods_denied_at_PATCH :
  isAllowedSpecEndpoint (U := BasicLatin.casing) "PATCH" "/api/v2/incidents/1" = false /\
  isAllowedRuntimeRequest (U := BasicLatin.casing) "PATCH" "/api/v2/incidents/1" = false.
Proof.
  apply (PolicyExtras.other_methods_denied (U := BasicLatin.casing));
    simpl; discriminate.
Defined.

Lemma runtime_put_delete_paths_at_notebook :
  isAllowedRuntimeRequest (U := BasicLatin.casing) "put" "/api/v1/notebooks/12345" = true <->
  exists id, validValue id = true /\
             ("/api/v1/notebooks/12345" = "/api/v1/notebooks/" ++ id \/
              "/api/v1/notebooks/12345" = "/api/v1/dashboard/" ++ id).
Proof.
  apply (PolicyExtras.runtime_put_delete_paths (U := BasicLatin.casing)).
  left; reflexivity.
Defined.

Lemma runtime_post_paths_at_notebooks :
  isAllowedRuntimeRequest (U := BasicLatin.casing) "post" "/api/v1/notebooks/" = true <->
  (exists suffix, In suffix SAFE_POST_SUFFIXES /\
                  JS.endsWith "/api/v1/notebooks/" suffix = true) \/
  "/api/v1/notebooks/" = "/api/v1/notebooks" \/
  "/api/v1/notebooks/" = "/api/v1/dashboard".
Proof.
  apply (PolicyExtras.runtime_post_paths (U := BasicLatin.casing)).
  reflexivity.
Defined.

Lemma literal_template_at_trailing_slash :
  matchPathPattern "/api/v1/notebooks" "/api/v1/notebooks/" = true <->
  "/api/v1/notebooks/" = "/api/v1/notebooks".
Proof.
  apply PolicyExtras.literal_template_matches_itself_only. reflexivity.
Defined.

Lemma safe_suffix_always_allowed_after_query :
  isAllowedSpecEndpoint (U := BasicLatin.casing) "POST" ("/api/v1/monitor?x=" ++ "/search") = true /\
  isAllowedRuntimeRequest (U := BasicLatin.casing) "POST" ("/api/v1/monitor?x=" ++ "/search") = true.
Proof.
  apply (PolicyExtras.safe_suffix_always_allowed (U := BasicLatin.casing));
    [reflexivity | simpl; tauto].
Defined.

Lemma catalog_kept_is_callable_at_dashboard :
  isAllowedRuntimeRequest (U := BasicLatin.casing) "DELETE"
    (substitute (fun _ => "abc-def") "/api/v1/dashboard/{dashboard_id}") = true.
Proof.
  apply (PolicyExtras.catalog_kept_is_callable (U := BasicLatin.casing));
    [intros name; reflexivity | reflexivity].
Defined.

Lemma earlier_revision_consistent_at_dashboard :
  AllowlistEarlier.isAllowedRuntimeRequest (U := BasicLatin.casing) "POST"
    (substitute (fun _ => "search") "/api/v1/dashboard/{dashboard_id}") =
  AllowlistEarlier.isAllowedSpecEndpoint (U := BasicLatin.casing) "POST"
    "/api/v1/dashboard/{dashboard_id}".
Proof.
  apply (proj1 (PolicyExtras.earlier_revision_consistent (U := BasicLatin.casing)
                  (fun _ => "search") "/api/v1/dashboard/{dashboard_id}" "POST"
                  (fun _ => eq_refl)
                  (or_intror (or_intror (or_intror (or_intror (or_introl eq_refl))))))).
Defined.


Lemma request_fails_before_fetch_at_malformed_url :
  Executor.request (U := BasicLatin.casing) (H := malformedHost) Offline.config
    (Executor.mkOptions (H := malformedHost) "GET" "/api/v1/monitor" None None) =
  ([Executor.NewURL "https://api.datadoghq.com/api/v1/monitor"], Thrown "Invalid URL").
Proof.
  apply (ExecutorExtras.request_fails_before_fetch
           (U := BasicLatin.casing) (H := malformedHost) Offline.config
           (Executor.mkOptions (H := malformedHost) "GET" "/api/v1/monitor" None None)
           "Invalid URL" eq_refl).
  left; reflexivity.
Defined.

Lemma request_returns_only_ok_responses_at_monitor :
  exists href headers body response,
    In (Executor.Fetch href "GET" headers body)
       (fst (Executor.request (U := BasicLatin.casing) (H := answeringHost) Offline.config
               (Executor.mkOptions (H := answeringHost) "GET" "/api/v1/monitor" None None))) /\
    Executor.fetch (Host := answeringHost) href "GET" headers body = Returned response /\
    Executor.response_ok (Host := answeringHost) response = true.
Proof.
  destruct (proj2 (ExecutorExtras.request_returns_only_ok_responses
                     (U := BasicLatin.casing) (H := answeringHost) Offline.config
                     (Executor.mkOptions (H := answeringHost) "GET" "/api/v1/monitor"
                        None None)
                     (inl (Some "[]")) eq_refl))
    as (href & headers & body & response & Hin & Hfetch & Hok & _).
  now exists href, headers, body, response.
Defined.

Lemma setQuery_skips_undefined_at_sample :
  Executor.setQuery (H := Offline.host) "https://api.datadoghq.com/api/v1/monitor"
    (Some [("tags", Executor.QUndefined); ("name", Executor.QUndefined)]) =
  "https://api.datadoghq.com/api/v1/monitor".
Proof.
  apply (proj2 (ExecutorExtras.setQuery_skips_undefined (H := Offline.host)
                  [("tags", Executor.QUndefined); ("name", Executor.QUndefined)]
                  "https://api.datadoghq.com/api/v1/monitor")).
  reflexivity.
Defined.

Lemma fetchContentLength_at_changed_upstream :
  snd (EnsureSpec.fetchContentLength (W := upstreamChanged) EnsureSpec.SPEC_URLS_v1) =
  Returned (Some (Some 99999%N)).
Proof.
  apply (proj2 (proj2 (proj2 (EnsureSpecFacts.fetchContentLength_never_throws
                                (W := upstreamChanged) EnsureSpec.SPEC_URLS_v1)))
           (EnsureSpec.mkHead true (Some "99999")) "99999" eq_refl eq_refl eq_refl).
Defined.

Lemma checkStaleness_fresh_iff_at_network_down :
  snd (EnsureSpec.checkStaleness (W := networkDown)) = Returned None <->
  exists m,
    Some manifest = Some m /\ true = true /\ "5f2c" = EnsureSpec.allowlistHash m /\
    (forall n, EnsureSpec.upstreamLength (W := networkDown) EnsureSpec.SPEC_URLS_v1 = Some n ->
               EnsureSpec.strictEq n (EnsureSpec.v1ContentLength m) = true) /\
    (forall n, EnsureSpec.upstreamLength (W := networkDown) EnsureSpec.SPEC_URLS_v2 = Some n ->
               EnsureSpec.strictEq n (EnsureSpec.v2ContentLength m) = true).
Proof.
  apply (EnsureSpecFacts.checkStaleness_fresh_iff (W := networkDown)
           (Some manifest) "5f2c" eq_refl eq_refl).
Defined.

Lemma unreachable_upstream_at_network_down :
  EnsureSpec.checkStaleness (W := networkDown) =
  ([ EnsureSpec.ReadManifest; EnsureSpec.SpecExists; EnsureSpec.HashAllowlist;
     EnsureSpec.HeadFetch EnsureSpec.SPEC_URLS_v1 5000%N;
     EnsureSpec.HeadFetch EnsureSpec.SPEC_URLS_v2 5000%N;
     EnsureSpec.Warn "Could not reach upstream specs to check for updates" ],
   Returned None).
Proof.
  apply (EnsureSpecFacts.unreachable_upstream_is_not_stale (W := networkDown)
           manifest eq_refl eq_refl eq_refl eq_refl eq_refl).
Defined.

Lemma checkStaleness_local_checks_first_at_changed_upstream :
  exists m,
    EnsureSpec.manifestFile (World := upstreamChanged) = Returned (Some m) /\
    EnsureSpec.specFilePresent (World := upstreamChanged) = true /\
    EnsureSpec.allowlistDigest (World := upstreamChanged) =
      Returned (EnsureSpec.allowlistHash m).
Proof.
  apply (proj1 (EnsureSpecFacts.checkStaleness_local_checks_first (W := upstreamChanged))
           EnsureSpec.SPEC_URLS_v1 5000%N).
  right; right; right; left; reflexivity.
Defined.

Lemma ensureSpec_rebuilds_at_changed_upstream :
  In EnsureSpec.BuildSpec (fst (EnsureSpec.ensureSpec (W := upstreamChanged))).
Proof.
  apply (proj1 (EnsureSpecFacts.ensureSpec_rebuilds_iff_stale (W := upstreamChanged))).
  exists "upstream v1 spec changed". reflexivity.
Defined.

Lemma extractProduct_segment_at_logs :
  BuildSpec.extractProduct "/api/v2/logs/events/search" = Some "logs".
Proof.
  apply (proj2 BuildSpecFacts.extractProduct_segment
           "/api/v2/logs/events/search" "v2" "logs" ["events"; "search"] eq_refl).
  - right; reflexivity.
  - discriminate.
Defined.

Lemma specPaths_distinct : NoDup (map fst specPaths).
Proof.
  repeat (constructor; [simpl; intros Hin;
                        repeat (destruct Hin as [Hin | Hin]; try discriminate);
                        contradiction|]).
  constructor.
Defined.

Lemma processSpec_keeps_exactly_allowed_at_monitor :
  (exists methods,
     BuildSpec.get "/api/v1/monitor" (BuildSpec.paths processed) = Some methods /\
     BuildSpec.get "post" methods =
       Some (BuildSpec.keepOperation (fun v => v) (fun t => t) "/api/v1/monitor"
               (operation "Create a monitor" (Some ["Monitors"])))) <->
  (exists pathItem op,
     BuildSpec.get "/api/v1/monitor" specPaths = Some (Some pathItem) /\
     In "post" BuildSpec.HTTP_METHODS /\
     BuildSpec.get "post" pathItem = Some op /\
     isAllowedSpecEndpoint (U := BasicLatin.casing) "post" "/api/v1/monitor" = true /\
     BuildSpec.keepOperation (fun v => v) (fun t => t) "/api/v1/monitor"
       (operation "Create a monitor" (Some ["Monitors"])) =
     BuildSpec.keepOperation (fun v => v) (fun t => t) "/api/v1/monitor" op).
Proof.
  apply (BuildSpecFacts.processSpec_keeps_exactly_allowed (U := BasicLatin.casing)
           (fun v => v) (fun t => t) specPaths "/api/v1/monitor" "post" _
           specPaths_distinct).
Defined.

Lemma processSpec_catalog_well_formed_at_notebook :
  In "put" ["get"; "post"; "put"; "delete"] /\
  isAllowedSpecEndpoint (U := BasicLatin.casing) "put" "/api/v1/notebooks/{notebook_id}" = true.
Proof.
  refine (proj2 (proj2 (proj2 (BuildSpecFacts.processSpec_catalog_well_formed
                                 (U := BasicLatin.casing) (fun v => v) (fun t => t) specPaths)
                          "/api/v1/notebooks/{notebook_id}" _ _))
            "put" _ _).
  - right; left; reflexivity.
  - right; left; reflexivity.
Defined.

Lemma processSpec_catalog_is_callable_at_notebook :
  isAllowedRuntimeRequest (U := BasicLatin.casing) "put"
    (substitute (fun _ => "48213") "/api/v1/notebooks/{notebook_id}") = true.
Proof.
  refine (BuildSpecFacts.processSpec_catalog_is_callable (U := BasicLatin.casing)
            (fun v => v) (fun t => t) specPaths (fun _ => "48213")
            "/api/v1/notebooks/{notebook_id}" "put" _ _ (fun _ => eq_refl) _ _).
  - right; left; reflexivity.
  - right; left; reflexivity.
Defined.

Lemma keepOperation_tags_at_notebook :
  BuildSpec.kept_tags
    (BuildSpec.keepOperation (fun v : string => v) (fun t => t)
       "/api/v1/notebooks/{notebook_id}" (operation "Get a notebook" None)) =
  ["notebooks"].
Proof.
  apply (proj2 (proj2 (proj1 (BuildSpecFacts.keepOperation_tags (fun v : string => v)
                                (fun t => t) "/api/v1/notebooks/{notebook_id}"
                                (operation "Get a notebook" None))
                         "notebooks" eq_refl))).
  reflexivity.
Defined.

Lemma merge_results_at_sample :
  CatalogTerms.countOf "monitor"
    (BuildSpec.mergeProducts [("monitor", 4); ("logs", 1)] [("incidents", 2); ("monitor", 3)]) =
  CatalogTerms.countOf "monitor" [("monitor", 4); ("logs", 1)] +
  CatalogTerms.countOf "monitor" [("incidents", 2); ("monitor", 3)].
Proof.
  refine (proj1 (BuildSpecFacts.merge_results (V := nat)
                   [("/api/v1/monitor", 1)] [("/api/v2/logs", 2)]
                   [("monitor", 4); ("logs", 1)] [("incidents", 2); ("monitor", 3)]
                   _ _ _ _) "monitor");
    repeat (constructor; [simpl; intros Hin;
                          repeat (destruct Hin as [Hin | Hin]; try discriminate);
                          contradiction|]);
    constructor.
Defined.

End ExtraInstances.
